(** * The operation model of sebak: registry, factory and envelope codec

    A shallow embedding of [lib/transaction/operation] (type registry,
    [NewOperation], [Operation.UnmarshalJSON], [UnmarshalBodyJSON] and the
    two delegating methods of [Operation]).

    Go values are embedded as follows.
    - A Go [string] and a Go [[]byte] are both sequences of octets; they are
      embedded as [string], whose characters are the 256 octets.
    - [error] is an interface value: [None] is Go's [nil], [Some e] a
      non-nil error.
    - A value of the interface type [Body] carries its dynamic type; the
      type switch of [NewOperation] is a match on it.
    - A method with a pointer receiver ([UnmarshalJSON]) takes the pointee
      before the call and returns the pointee after it.
    - The calls to [json.Unmarshal] are recorded in a trace, so that
      "no decoding was attempted" is a statement about the result. *)

From Stdlib Require Import String Ascii List Bool NArith ZArith DecimalString Lia.
Import ListNotations.
Local Open Scope string_scope.

(** ** Basic Go types *)

Definition bytes := string.

Definition RawMessage := bytes.

Inductive Err : Type :=
| UnknownOperationType
| InvalidOperation
| ForeignError (msg : string).

Definition error := option Err.

Inductive result (A : Type) : Type :=
| Ok (a : A)
| Failed (e : Err).

Arguments Ok {A} a.
Arguments Failed {A} e.

Inductive outcome (A : Type) : Type :=
| Returns (a : A)
| Panics.

Arguments Returns {A} a.
Arguments Panics {A}.

(** ** Type registry *)

Definition OperationType := string.

Definition TypeCreateAccount : OperationType := "create-account".
Definition TypePayment : OperationType := "payment".
Definition TypeCongressVoting : OperationType := "congress-voting".
Definition TypeCongressVotingResult : OperationType := "congress-voting-result".
Definition TypeCollectTxFee : OperationType := "collect-tx-fee".
Definition TypeInflation : OperationType := "inflation".
Definition TypeUnfreezingRequest : OperationType := "unfreezing-request".
Definition TypeInflationPF : OperationType := "inflation-pf".

(** Modelled from the spec: [common.InStringArray] belongs to package
    lib/common and its body is not among the sources embedded here.  The
    spec asks of its caller "an exact, case-sensitive match against the
    canonical set; no normalization", so the helper is a left-to-right scan
    comparing octet for octet.  Its first result, which the caller
    discards, is the position of the match, or -1 when there is none. *)
Fixpoint InStringArray_from (i : Z) (a : list string) (s : string) : Z * bool :=
  match a with
  | [] => ((-1)%Z, false)
  | h :: a' => if String.eqb h s then (i, true) else InStringArray_from (i + 1)%Z a' s
  end.

Definition InStringArray (a : list string) (s : string) : Z * bool :=
  InStringArray_from 0%Z a s.

Definition IsValidOperationType (oType : string) : bool :=
  let '(_, b) := InStringArray [
    TypeCreateAccount;
    TypePayment;
    TypeCongressVoting;
    TypeCongressVotingResult;
    TypeCollectTxFee;
    TypeInflation;
    TypeUnfreezingRequest;
    TypeInflationPF
  ] oType in
  b.

Definition IsNormalOperation (t : OperationType) : bool :=
  if (t =? TypeCreateAccount) || (t =? TypePayment)
     || (t =? TypeCongressVoting) || (t =? TypeCongressVotingResult)
     || (t =? TypeUnfreezingRequest) || (t =? TypeInflationPF)
  then true
  else false.

(** The eight canonical tags, as the spec lists them. *)
Definition canonical_tags : list string :=
  [ "create-account"; "payment"; "congress-voting"; "congress-voting-result";
    "collect-tx-fee"; "inflation"; "unfreezing-request"; "inflation-pf" ].

(** The six tags of the operations that users submit. *)
Definition normal_tags : list string :=
  [ "create-account"; "payment"; "congress-voting"; "congress-voting-result";
    "unfreezing-request"; "inflation-pf" ].

(** ** Payloads

    The eight payload structs are declared in sibling files of the package;
    here they are a family of types indexed by the name of the struct.
    [Foreign] stands for every other type whose method set satisfies [Body]
    (a test double, for instance). *)

Inductive Variant : Type :=
| CreateAccount
| Payment
| CollectTxFee
| Inflation
| UnfreezeRequest
| CongressVoting
| CongressVotingResult
| InflationPF.

(** The method set of the interface [Body]. *)
Class BodyMethods (Config T : Type) : Type := {
  IsWellFormed : T -> Config -> error;
  HasFee : T -> bool
}.

Class Collaborators : Type := {
  Config : Type;
  payload : Variant -> Type;
  payload_Body :: forall k, BodyMethods Config (payload k);
  Foreign : Type;
  Foreign_Body :: BodyMethods Config Foreign
}.

Section Model.

Context {collaborators : Collaborators}.

(** A value of interface type [Body]: the nil interface, a struct of one of
    the eight types, a pointer to such a struct (nil or not), or a value of
    another type.  [UnmarshalBodyJSON] assigns the structs themselves to a
    [Body], so their methods have value receivers and the pointer types
    satisfy [Body] as well. *)
Inductive Body : Type :=
| nilBody
| valueOf (k : Variant) (ob : payload k)
| pointerTo (k : Variant) (target : option (payload k))
| foreign (v : Foreign).

(** Calling a method through the interface.  A nil interface and a nil
    pointer make the call panic. *)
Definition Body_IsWellFormed (b : Body) (conf : Config) : outcome error :=
  match b with
  | nilBody => Panics
  | valueOf _ ob => Returns (IsWellFormed ob conf)
  | pointerTo _ (Some ob) => Returns (IsWellFormed ob conf)
  | pointerTo _ None => Panics
  | foreign v => Returns (IsWellFormed v conf)
  end.

Definition Body_HasFee (b : Body) : outcome bool :=
  match b with
  | nilBody => Panics
  | valueOf _ ob => Returns (HasFee ob)
  | pointerTo _ (Some ob) => Returns (HasFee ob)
  | pointerTo _ None => Panics
  | foreign v => Returns (HasFee v)
  end.

Record Header : Type := { Type_ : OperationType }.

Record Operation : Type := { H : Header; B : Body }.

(** The zero value of [Operation]. *)
Definition zero_Operation : Operation :=
  {| H := {| Type_ := "" |}; B := nilBody |}.

(** The type switch of [NewOperation], arm by arm; [None] is the default
    arm. *)
Definition switch_type (opb : Body) : option OperationType :=
  match opb with
  | valueOf CreateAccount _ => Some TypeCreateAccount
  | valueOf Payment _ => Some TypePayment
  | valueOf CollectTxFee _ => Some TypeCollectTxFee
  | valueOf Inflation _ => Some TypeInflation
  | valueOf UnfreezeRequest _ => Some TypeUnfreezingRequest
  | valueOf CongressVoting _ => Some TypeCongressVoting
  | valueOf CongressVotingResult _ => Some TypeCongressVotingResult
  | valueOf InflationPF _ => Some TypeInflationPF
  | _ => None
  end.

Definition NewOperation (opb : Body) : Operation * error :=
  let op := zero_Operation in
  let err : error := None in
  match switch_type opb with
  | None => (op, Some UnknownOperationType)
  | Some t => ({| H := {| Type_ := t |}; B := opb |}, err)
  end.

Definition Operation_IsWellFormed (o : Operation) (conf : Config) : outcome error :=
  Body_IsWellFormed (B o) conf.

Definition Operation_HasFee (o : Operation) : outcome bool :=
  Body_HasFee (B o).

(** ** The JSON library

    [encoding/json] is used at three places: [json.Marshal] of an
    [Operation] (which has no marshaller of its own), [json.Unmarshal] into
    an [envelop] whose [B] points at a [json.RawMessage], and
    [json.Unmarshal] into a zero payload struct.  Each target starts from a
    fixed value, so each call is a function of the octets alone. *)
Class JSON : Type := {
  json_Marshal : Operation -> result bytes;
  json_Unmarshal_envelop : bytes -> result (Header * RawMessage);
  json_Unmarshal : forall k : Variant, bytes -> result (payload k)
}.

Context {json : JSON}.

(** What a call to [json.Unmarshal] decodes into. *)
Inductive Destination : Type :=
| into_envelop
| into (k : Variant).

Record Call : Type := { call_data : bytes; call_into : Destination }.

(** A computation together with the calls to [json.Unmarshal] it made. *)
Definition Traced (A : Type) : Type := list Call * A.

Definition ret {A : Type} (a : A) : Traced A := ([], a).

Definition bind {A C : Type} (m : Traced A) (f : A -> Traced C) : Traced C :=
  let '(t1, a) := m in
  let '(t2, c) := f a in
  ((t1 ++ t2)%list, c).

Notation "x <- m ;; f" := (bind m (fun x => f))
  (at level 61, m at next level, right associativity).

Definition calls {A : Type} (m : Traced A) : list Call := fst m.

Definition value {A : Type} (m : Traced A) : A := snd m.

Definition unmarshal_envelop (b : bytes) : Traced (result (Header * RawMessage)) :=
  ([ {| call_data := b; call_into := into_envelop |} ], json_Unmarshal_envelop b).

Definition unmarshal (k : Variant) (b : bytes) : Traced (result (payload k)) :=
  ([ {| call_data := b; call_into := into k |} ], json_Unmarshal k b).

(** One arm of [UnmarshalBodyJSON]:
    [var ob T; if err = json.Unmarshal(b, &ob); err != nil { return }; body = ob]. *)
Definition decode_as (k : Variant) (b : bytes) : Traced (Body * error) :=
  r <- unmarshal k b ;;
  match r with
  | Failed e => ret (nilBody, Some e)
  | Ok ob => ret (valueOf k ob, None)
  end.

Definition UnmarshalBodyJSON (t : OperationType) (b : bytes) : Traced (Body * error) :=
  if t =? TypeCreateAccount then decode_as CreateAccount b
  else if t =? TypePayment then decode_as Payment b
  else if t =? TypeCongressVoting then decode_as CongressVoting b
  else if t =? TypeCongressVotingResult then decode_as CongressVotingResult b
  else if t =? TypeCollectTxFee then decode_as CollectTxFee b
  else if t =? TypeInflation then decode_as Inflation b
  else if t =? TypeUnfreezingRequest then decode_as UnfreezeRequest b
  else if t =? TypeInflationPF then decode_as InflationPF b
  else ret (nilBody, Some InvalidOperation).

(** [o] is the pointee of the receiver before the call; the result holds the
    pointee after the call and the error returned. *)
Definition UnmarshalJSON (o : Operation) (b : bytes) : Traced (Operation * error) :=
  r <- unmarshal_envelop b ;;
  match r with
  | Failed e => ret (o, Some e)
  | Ok (oj_H, raw) =>
      let o := {| H := oj_H; B := B o |} in
      r' <- UnmarshalBodyJSON (Type_ oj_H) raw ;;
      let '(body, err) := r' in
      match err with
      | Some _ => ret (o, err)
      | None => ret ({| H := H o; B := body |}, err)
      end
  end.

(** ** Notions used by the statements *)

(** The payload is a struct of one of the eight registered types. *)
Definition registered (b : Body) : bool :=
  match b with
  | valueOf _ _ => true
  | _ => false
  end.

(** The discriminant the registry gives to a struct type: the constant
    named after it. *)
Definition discriminant (k : Variant) : OperationType :=
  match k with
  | CreateAccount => "create-account"
  | Payment => "payment"
  | CongressVoting => "congress-voting"
  | CongressVotingResult => "congress-voting-result"
  | CollectTxFee => "collect-tx-fee"
  | Inflation => "inflation"
  | UnfreezeRequest => "unfreezing-request"
  | InflationPF => "inflation-pf"
  end.

(** The invariant of [Operation]: the header names the struct type of the
    body. *)
Definition header_matches_body (o : Operation) : Prop :=
  match B o with
  | valueOf k _ => Type_ (H o) = discriminant k
  | _ => False
  end.

(** A decode that leaves no trace of a failure: either it succeeds, or the
    receiver is what it was before the call. *)
Definition atomic_decode (o : Operation) (b : bytes) : Prop :=
  let '(o', err) := value (UnmarshalJSON o b) in
  err = None \/ o' = o.

End Model.

Notation "x <- m ;; f" := (bind m (fun x => f))
  (at level 61, m at next level, right associativity).

(** * A reference codec

    An instance of the collaborators, on which the model runs on concrete
    wire data.  The payload structs belong to sibling files and the codec
    to the standard library; the properties below hold for whatever they
    are, and this instance only supplies sample inputs.  Every variant carries a target
    address and an amount, the two fields of the payment in the spec's
    scenario, and the wire shape is the one of the spec,
    [{"H": {"type": <tag>}, "B": {<payload fields>}}].

    The codec reads and writes the compact layout that [json.Marshal]
    produces, with keys in declaration order, strings without escapes and
    unsigned integers; anything else is reported as unsupported. *)
Module Wire.

Definition dq : ascii := "034"%char.

Definition quote (s : string) : string := String dq (s ++ String dq "").

(** Octets that [json.Marshal] writes as they are inside a string. *)
Definition plain (c : ascii) : bool :=
  let n := N_of_ascii c in
  (32 <=? n)%N && (n <=? 126)%N
  && negb (n =? 34)%N && negb (n =? 92)%N
  && negb (n =? 60)%N && negb (n =? 62)%N && negb (n =? 38)%N.

Definition all_plain (s : string) : bool :=
  forallb plain (list_ascii_of_string s).

Definition is_digit (c : ascii) : bool :=
  let n := N_of_ascii c in (48 <=? n)%N && (n <=? 57)%N.

Fixpoint expect (p s : string) : option string :=
  match p with
  | EmptyString => Some s
  | String c p' =>
      match s with
      | String d s' => if Ascii.eqb c d then expect p' s' else None
      | EmptyString => None
      end
  end.

(** The characters of a string up to its closing quote, and what follows. *)
Fixpoint read_plain (s : string) : option (string * string) :=
  match s with
  | EmptyString => None
  | String c r =>
      if Ascii.eqb c dq then Some (EmptyString, r)
      else if plain c then
        match read_plain r with
        | Some (w, r') => Some (String c w, r')
        | None => None
        end
      else None
  end.

Definition read_string (s : string) : option (string * string) :=
  match s with
  | String c r => if Ascii.eqb c dq then read_plain r else None
  | EmptyString => None
  end.

Fixpoint read_digits (s : string) : string * string :=
  match s with
  | EmptyString => (EmptyString, EmptyString)
  | String c r =>
      if is_digit c then let '(d, r') := read_digits r in (String c d, r')
      else (EmptyString, s)
  end.

(** An unsigned integer without leading zero. *)
Definition read_number (s : string) : option (N * string) :=
  match read_digits s with
  | (EmptyString, _) => None
  | (String c d, r) =>
      if Ascii.eqb c "0" && negb (String.eqb d EmptyString) then None
      else
        match NilEmpty.uint_of_string (String c d) with
        | Some u => Some (N.of_uint u, r)
        | None => None
        end
  end.

Definition decimal (n : N) : string := NilZero.string_of_uint (N.to_uint n).

(** Skips one JSON value of the compact layout; [n] bounds the nesting and
    the number of items. *)
Fixpoint scan_value (n : nat) (s : string) {struct n} : option string :=
  match n with
  | O => None
  | S n =>
      match s with
      | String "[" (String "]" r) => Some r
      | String "[" r => scan_elements n r
      | String "{" (String "}" r) => Some r
      | String "{" r => scan_members n r
      | String c r =>
          if Ascii.eqb c dq then option_map snd (read_plain r)
          else if is_digit c then option_map snd (read_number s)
          else
            match expect "null" s, expect "true" s, expect "false" s with
            | Some r', _, _ => Some r'
            | _, Some r', _ => Some r'
            | _, _, Some r' => Some r'
            | _, _, _ => None
            end
      | EmptyString => None
      end
  end
with scan_elements (n : nat) (s : string) {struct n} : option string :=
  match n with
  | O => None
  | S n =>
      match scan_value n s with
      | Some (String "," r) => scan_elements n r
      | Some (String "]" r) => Some r
      | _ => None
      end
  end
with scan_members (n : nat) (s : string) {struct n} : option string :=
  match n with
  | O => None
  | S n =>
      match read_string s with
      | Some (_, String ":" r) =>
          match scan_value n r with
          | Some (String "," r') => scan_members n r'
          | Some (String "}" r') => Some r'
          | _ => None
          end
      | _ => None
      end
  end.

Definition unsupported {A : Type} : result A :=
  Failed (ForeignError "json: unsupported input").

Record Fields : Type := { Target : string; Amount : N }.

(** A stand-in for the consensus check of a payload: the amount must not be
    zero. *)
#[global] Instance Fields_Body : BodyMethods unit Fields := {
  IsWellFormed f _ :=
    if (Amount f =? 0)%N then Some (ForeignError "invalid amount") else None;
  HasFee _ := true
}.

(** A test double: it answers what it was built with. *)
Record Double : Type := { verdict : error; fee : bool }.

#[global] Instance Double_Body : BodyMethods unit Double := {
  IsWellFormed d _ := verdict d;
  HasFee d := fee d
}.

#[global] Instance collaborators : Collaborators := {
  Config := unit;
  payload _ := Fields;
  payload_Body _ := Fields_Body;
  Foreign := Double;
  Foreign_Body := Double_Body
}.

Definition render_Fields (f : Fields) : string :=
  "{" ++ quote "target" ++ ":" ++ quote (Target f) ++ ","
      ++ quote "amount" ++ ":" ++ decimal (Amount f) ++ "}".

Definition render_envelope (t : OperationType) (body : string) : string :=
  "{" ++ quote "H" ++ ":{" ++ quote "type" ++ ":" ++ quote t ++ "},"
      ++ quote "B" ++ ":" ++ body ++ "}".

Definition Marshal_Fields (t : OperationType) (f : Fields) : result bytes :=
  if all_plain (Target f) && (Amount f <? 2 ^ 64)%N
  then Ok (render_envelope t (render_Fields f))
  else unsupported.

Definition Marshal (o : Operation) : result bytes :=
  let t := Type_ (H o) in
  if all_plain t then
    match B o with
    | nilBody => Ok (render_envelope t "null")
    | valueOf _ ob => Marshal_Fields t ob
    | pointerTo _ (Some ob) => Marshal_Fields t ob
    | pointerTo _ None => Ok (render_envelope t "null")
    | foreign _ => unsupported
    end
  else unsupported.

Definition Unmarshal_envelop (b : bytes) : result (Header * RawMessage) :=
  match expect ("{" ++ quote "H" ++ ":{" ++ quote "type" ++ ":") b with
  | Some r1 =>
      match read_string r1 with
      | Some (t, r2) =>
          match expect ("}," ++ quote "B" ++ ":") r2 with
          | Some r3 =>
              match scan_value (String.length r3) r3 with
              | Some (String "}" EmptyString) =>
                  Ok ({| Type_ := t |}, substring 0 (String.length r3 - 1) r3)
              | _ => unsupported
              end
          | None => unsupported
          end
      | None => unsupported
      end
  | None => unsupported
  end.

Definition Unmarshal_Fields (b : bytes) : result Fields :=
  match expect ("{" ++ quote "target" ++ ":") b with
  | Some r1 =>
      match read_string r1 with
      | Some (t, r2) =>
          match expect ("," ++ quote "amount" ++ ":") r2 with
          | Some r3 =>
              match read_number r3 with
              | Some (a, String "}" EmptyString) =>
                  if (a <? 2 ^ 64)%N then Ok {| Target := t; Amount := a |}
                  else unsupported
              | _ => unsupported
              end
          | None => unsupported
          end
      | None => unsupported
      end
  | None => unsupported
  end.

#[global] Instance json : JSON := {
  json_Marshal := Marshal;
  json_Unmarshal_envelop := Unmarshal_envelop;
  json_Unmarshal _ := Unmarshal_Fields
}.

(** Sample data. *)
Definition gabc_100 : Body := valueOf Payment {| Target := "GABC"; Amount := 100 |}.

Definition payment_op : Operation :=
  {| H := {| Type_ := "payment" |}; B := gabc_100 |}.

Definition payment_wire : bytes :=
  render_envelope "payment" (render_Fields {| Target := "GABC"; Amount := 100 |}).

(** An envelope tagged as an inflation whose body is an array. *)
Definition inflation_array_wire : bytes := render_envelope "inflation" "[]".

(** An envelope with a tag outside the registry. *)
Definition bogus_wire : bytes :=
  render_envelope "bogus" (render_Fields {| Target := "GABC"; Amount := 100 |}).

(** A payment of nothing, which the consensus check refuses. *)
Definition gabc_0 : Body := valueOf Payment {| Target := "GABC"; Amount := 0 |}.

Definition failing_double : Body :=
  foreign {| verdict := Some (ForeignError "refused"); fee := false |}.

End Wire.

(** * Package common: free ports and endpoints (net.go)

    The functions of net.go lean on the standard library: [net], [net/url],
    [strconv] and [strings].  Those are taken as they come, as the fields of
    [Platform]; what is embedded is the code around them.  A dial is a
    function of the port: [GetFreePort] dials each port at most once. *)

Record Userinfo : Type := {
  username : string;
  password : string;
  passwordSet : bool
}.

(** [url.URL], with the fields that net.go names. *)
Record URL : Type := {
  Scheme : string;
  Opaque : string;
  User : option Userinfo;
  Host : string;
  Path : string;
  RawPath : string;
  ForceQuery : bool;
  RawQuery : string;
  Fragment : string
}.

Class Platform : Type := {
  (** [net.DialTimeout("tcp", ":<port>", 100ms)]: nil when the connection
      was accepted. *)
  net_DialTimeout : Z -> error;
  (** [net.SplitHostPort]: host and port, or an error. *)
  net_SplitHostPort : string -> result (string * string);
  (** [strconv.ParseInt(s, 10, 64)]. *)
  strconv_ParseInt : string -> result Z;
  (** [url.Parse]. *)
  url_Parse : string -> result URL;
  (** The method [Port] of [url.URL]. *)
  URL_Port : URL -> string;
  (** [strings.ToLower] and [strings.TrimSpace]. *)
  strings_ToLower : string -> string;
  strings_TrimSpace : string -> string
}.

(** The package variable [DefaultEndpoint], at its initial value; nothing
    in net.go assigns it. *)
Definition DefaultEndpoint : Z := 12345.

(** The verb [%d] of [fmt.Sprintf]. *)
Definition decimal_int (z : Z) : string := NilZero.string_of_int (Z.to_int z).

(** [u] with its field [Host] assigned. *)
Definition with_Host (u : URL) (h : string) : URL :=
  {| Scheme := Scheme u;
     Opaque := Opaque u;
     User := User u;
     Host := h;
     Path := Path u;
     RawPath := RawPath u;
     ForceQuery := ForceQuery u;
     RawQuery := RawQuery u;
     Fragment := Fragment u |}.

(** [u] with its field [Scheme] assigned. *)
Definition with_Scheme (u : URL) (s : string) : URL :=
  {| Scheme := s;
     Opaque := Opaque u;
     User := User u;
     Host := Host u;
     Path := Path u;
     RawPath := RawPath u;
     ForceQuery := ForceQuery u;
     RawQuery := RawQuery u;
     Fragment := Fragment u |}.

Definition Endpoint := URL.

Section Net.

Context {platform : Platform}.

Definition CheckPortInUse (port : Z) : error :=
  if (port <? 1)%Z then Some (ForeignError "0 port is not available")
  else net_DialTimeout port.

(** The inner loop of [GetFreePort]: [found] after [range excludes]. *)
Fixpoint found_in (i : Z) (excludes : list Z) : bool :=
  match excludes with
  | [] => false
  | e :: excludes' => if (i =? e)%Z then true else found_in i excludes'
  end.

(** The outer loop of [GetFreePort] from [i] on; [n] bounds the number of
    iterations left. *)
Fixpoint GetFreePort_from (n : nat) (i : Z) (excludes : list Z) : Z :=
  match n with
  | O => 0%Z
  | S n' =>
      if (i <? 10000)%Z then
        if found_in i excludes then GetFreePort_from n' (i + 1)%Z excludes
        else
          match CheckPortInUse i with
          | None => GetFreePort_from n' (i + 1)%Z excludes
          | Some _ => i
          end
      else 0%Z
  end.

Definition GetFreePort (excludes : list Z) : Z :=
  GetFreePort_from (Z.to_nat (10000 - 1024)) 1024%Z excludes.

Definition IsLocalhost (s : string) : bool :=
  (s =? "localhost") || String.prefix "127.0." s.

Definition NormalizeURLPath (s : string) : string :=
  let s := strings_TrimSpace s in
  if (String.length s <? 1)%nat then ""
  else if s =? "/" then ""
  else s.

Definition Endpoint_Equal (e n : Endpoint) : bool :=
  let paths :=
    if negb (NormalizeURLPath (Path e) =? NormalizeURLPath (Path n)) then false
    else true in
  if negb (Scheme e =? Scheme n) then false
  else if negb (Host e =? Host n) then
    match net_SplitHostPort (Host e) with
    | Failed _ => false
    | Ok (ehost, eport) =>
        match net_SplitHostPort (Host n) with
        | Failed _ => false
        | Ok (nhost, nport) =>
            if negb (eport =? nport) then false
            else if negb (IsLocalhost ehost) || negb (IsLocalhost nhost) then false
            else paths
        end
    end
  else paths.

(** A nil result stands for the failure: [u] is assigned on the last line
    only. *)
Definition ParseEndpoint (endpoint : string) : result Endpoint :=
  match url_Parse endpoint with
  | Failed err => Failed err
  | Ok parsed =>
      if (String.length (Scheme parsed) <? 1)%nat
      then Failed (ForeignError "missing scheme")
      else
        let parsed :=
          if (String.length (URL_Port parsed) <? 1)%nat
             && negb (Scheme parsed =? "memory")
          then with_Host parsed (Host parsed ++ ":" ++ decimal_int DefaultEndpoint)
          else parsed in
        let checked : result URL :=
          if negb (Scheme parsed =? "memory") then
            let port := URL_Port parsed in
            match strconv_ParseInt port with
            | Failed err => Failed err
            | Ok portInt =>
                if (portInt <? 1)%Z then Failed (ForeignError "invalid port")
                else if (String.length (Host parsed) <? 1)%nat
                then Ok (with_Host parsed ("127.0.0.1:" ++ URL_Port parsed))
                else Ok parsed
            end
          else Ok parsed in
        match checked with
        | Failed err => Failed err
        | Ok parsed => Ok (with_Host parsed (strings_ToLower (Host parsed)))
        end
  end.

(** [e] is the pointee of the receiver before the call.  The slice
    [string(b)[1 : len(string(b))-1]] panics when [b] has fewer than two
    octets. *)
Definition Endpoint_UnmarshalJSON (e : Endpoint) (b : bytes)
  : outcome (Endpoint * error) :=
  if (String.length b <? 2)%nat then Panics
  else
    match ParseEndpoint (substring 1 (String.length b - 2) b) with
    | Failed err => Returns (e, Some err)
    | Ok p => Returns (p, None)
    end.

(** ** Notions used by the statements *)

(** A port that [GetFreePort] passes over: it is excluded, or something
    accepts connections on it. *)
Definition passed_over (excludes : list Z) (q : Z) : Prop :=
  In q excludes \/ net_DialTimeout q = None.

(** Two hosts that [Endpoint.Equal] takes for the same: the same text, or
    two loopback names with the same port. *)
Definition same_host (a b : string) : Prop :=
  a = b
  \/ exists (ha hb port : string),
       net_SplitHostPort a = Ok (ha, port)
       /\ net_SplitHostPort b = Ok (hb, port)
       /\ IsLocalhost ha = true /\ IsLocalhost hb = true.

End Net.

(** * A sample platform

    An instance of [Platform] on which net.go runs on concrete inputs.  It
    agrees with the standard library on the inputs used below: strings of
    letters, digits, dots, colons, slashes and blanks, without brackets and
    without escapes. *)
Module Sample.

Definition lower (c : ascii) : ascii :=
  let n := N_of_ascii c in
  if (65 <=? n)%N && (n <=? 90)%N then ascii_of_N (n + 32) else c.

Fixpoint ToLower (s : string) : string :=
  match s with
  | EmptyString => EmptyString
  | String c r => String (lower c) (ToLower r)
  end.

Definition is_space (c : ascii) : bool :=
  let n := N_of_ascii c in
  (n =? 32)%N || ((9 <=? n)%N && (n <=? 13)%N).

Fixpoint trim_left (s : string) : string :=
  match s with
  | String c r => if is_space c then trim_left r else s
  | EmptyString => EmptyString
  end.

Definition reverse (s : string) : string :=
  string_of_list_ascii (rev (list_ascii_of_string s)).

Definition TrimSpace (s : string) : string :=
  reverse (trim_left (reverse (trim_left s))).

(** What stands before and after the last colon. *)
Fixpoint split_last_colon (s : string) : option (string * string) :=
  match s with
  | EmptyString => None
  | String c r =>
      match split_last_colon r with
      | Some (h, p) => Some (String c h, p)
      | None => if Ascii.eqb c ":" then Some (EmptyString, r) else None
      end
  end.

Fixpoint contains (c : ascii) (s : string) : bool :=
  match s with
  | EmptyString => false
  | String d r => Ascii.eqb c d || contains c r
  end.

Definition SplitHostPort (hostport : string) : result (string * string) :=
  if contains "[" hostport || contains "]" hostport
  then Failed (ForeignError "brackets are not supported")
  else
    match split_last_colon hostport with
    | None => Failed (ForeignError "missing port in address")
    | Some (host, port) =>
        if contains ":" host then Failed (ForeignError "too many colons in address")
        else Ok (host, port)
    end.

Definition all_digits (s : string) : bool :=
  forallb Wire.is_digit (list_ascii_of_string s).

(** Digits, after an optional sign, within 64 bits. *)
Definition ParseInt (s : string) : result Z :=
  let '(negative, digits) :=
    match s with
    | String "-" r => (true, r)
    | String "+" r => (false, r)
    | _ => (false, s)
    end in
  if all_digits digits && negb (digits =? "") then
    match NilEmpty.uint_of_string digits with
    | Some u =>
        let z := if negative : bool then (- Z.of_uint u)%Z else Z.of_uint u in
        if ((- 2 ^ 63 <=? z) && (z <? 2 ^ 63))%Z then Ok z
        else Failed (ForeignError "value out of range")
    | None => Failed (ForeignError "invalid syntax")
    end
  else Failed (ForeignError "invalid syntax").

Definition Port (u : URL) : string :=
  match split_last_colon (Host u) with
  | Some (_, p) => if all_digits p then p else EmptyString
  | None => EmptyString
  end.

(** What stands before and after the first slash, the slash going with
    what follows. *)
Fixpoint split_first_slash (s : string) : string * string :=
  match s with
  | EmptyString => (EmptyString, EmptyString)
  | String c r =>
      if Ascii.eqb c "/" then (EmptyString, s)
      else let '(a, p) := split_first_slash r in (String c a, p)
  end.

Definition is_letter (c : ascii) : bool :=
  let n := N_of_ascii (lower c) in (97 <=? n)%N && (n <=? 122)%N.

(** What may follow the first letter of a scheme. *)
Definition is_scheme_char (c : ascii) : bool :=
  is_letter c || Wire.is_digit c
  || Ascii.eqb c "+" || Ascii.eqb c "-" || Ascii.eqb c ".".

(** The scheme in front of the first colon, and what follows the colon;
    [first] tells that no character was read yet. *)
Fixpoint split_scheme (first : bool) (s : string) : option (string * string) :=
  match s with
  | EmptyString => None
  | String c r =>
      if Ascii.eqb c ":" then Some (EmptyString, r)
      else if is_letter c || (negb first && is_scheme_char c) then
        match split_scheme false r with
        | Some (a, p) => Some (String c a, p)
        | None => None
        end
      else None
  end.

Definition plain_URL (path : string) : URL :=
  {| Scheme := ""; Opaque := ""; User := None; Host := ""; Path := path;
     RawPath := ""; ForceQuery := false; RawQuery := ""; Fragment := "" |}.

Definition is_host_char (c : ascii) : bool :=
  is_letter c || Wire.is_digit c || Ascii.eqb c "." || Ascii.eqb c "-".

(** A name, or a name, a colon and digits. *)
Definition valid_authority (a : string) : bool :=
  match split_last_colon a with
  | Some (h, p) => forallb is_host_char (list_ascii_of_string h) && all_digits p
  | None => forallb is_host_char (list_ascii_of_string a)
  end.

(** The characters of the inputs that the sample reads. *)
Definition supported (s : string) : bool :=
  forallb (fun c => is_scheme_char c || Ascii.eqb c ":" || Ascii.eqb c "/"
                    || Ascii.eqb c " ")
          (list_ascii_of_string s).

(** [scheme://host/path], [scheme:/path], [scheme:opaque] or a bare
    path. *)
Definition Parse (s : string) : result URL :=
  if supported s then
    match split_scheme true s with
    | Some (EmptyString, _) => Failed (ForeignError "missing protocol scheme")
    | Some (scheme, String "/" (String "/" rest)) =>
        let '(authority, path) := split_first_slash rest in
        if valid_authority authority then
          Ok (with_Host (with_Scheme (plain_URL path) (ToLower scheme)) authority)
        else Failed (ForeignError "invalid host")
    | Some (scheme, String "/" rest) =>
        Ok (with_Scheme (plain_URL (String "/" rest)) (ToLower scheme))
    | Some (scheme, rest) =>
        Ok {| Scheme := ToLower scheme; Opaque := rest; User := None; Host := "";
              Path := ""; RawPath := ""; ForceQuery := false; RawQuery := "";
              Fragment := "" |}
    | None =>
        if contains ":" (fst (split_first_slash s))
        then Failed (ForeignError "first path segment in URL cannot contain colon")
        else Ok (plain_URL s)
    end
  else Failed (ForeignError "this input is not supported").

(** Dialing: something listens on every port below 1030, nothing above. *)
Definition DialTimeout (port : Z) : error :=
  if (port <? 1030)%Z then None else Some (ForeignError "connection refused").

#[global] Instance platform : Platform := {
  net_DialTimeout := DialTimeout;
  net_SplitHostPort := SplitHostPort;
  strconv_ParseInt := ParseInt;
  url_Parse := Parse;
  URL_Port := Port;
  strings_ToLower := ToLower;
  strings_TrimSpace := TrimSpace
}.

(** Every port is taken. *)
Definition crowded : Platform := {|
  net_DialTimeout := fun _ => None;
  net_SplitHostPort := SplitHostPort;
  strconv_ParseInt := ParseInt;
  url_Parse := Parse;
  URL_Port := Port;
  strings_ToLower := ToLower;
  strings_TrimSpace := TrimSpace
|}.

End Sample.

(** * The envelope on the wire

    What [encoding/json] does with the two structs of this package:
    [json.Marshal] writes an [Operation] as the object
    [{"H":{"type":<tag>},"B":<body>}], where [<body>] is the encoding of the
    payload itself, and [json.Unmarshal] into an [envelop] whose [B] points
    at a [json.RawMessage] gives back the tag and the octets of [<body>] as
    they stand; a [<body>] that is [null] leaves the raw message empty.
    The encoding of the payload structs is theirs: it is the parameter
    [PayloadCodec].

    The codec reads the compact layout that [json.Marshal] produces and
    writes tags made of plain characters, as the eight tags are; anything
    else is reported as unsupported. *)

(** [json.Marshal] of a payload struct and [json.Unmarshal] into a zero
    payload struct. *)
Class PayloadCodec {collaborators : Collaborators} : Type := {
  marshal_payload : forall k : Variant, payload k -> result bytes;
  unmarshal_payload : forall k : Variant, bytes -> result (payload k)
}.

Module Envelope.

Definition backslash : ascii := "092"%char.

(** The escape of U+FFFD, as [json.Marshal] writes it. *)
Definition replacement_escape : string := String backslash "ufffd".

Definition is_hex (c : ascii) : bool :=
  let n := N_of_ascii c in
  ((48 <=? n)%N && (n <=? 57)%N)
  || ((65 <=? n)%N && (n <=? 70)%N)
  || ((97 <=? n)%N && (n <=? 102)%N).

(** The letters that may follow a backslash, [u] apart. *)
Definition is_escape (c : ascii) : bool :=
  Ascii.eqb c Wire.dq || Ascii.eqb c backslash || Ascii.eqb c "/"
  || Ascii.eqb c "b" || Ascii.eqb c "f" || Ascii.eqb c "n"
  || Ascii.eqb c "r" || Ascii.eqb c "t".

(** What follows the closing quote of a string whose opening quote was
    read. *)
Fixpoint skip_string (s : string) : option string :=
  match s with
  | EmptyString => None
  | String c r =>
      if Ascii.eqb c Wire.dq then Some r
      else if Ascii.eqb c backslash then
        match r with
        | String e r' =>
            if is_escape e then skip_string r'
            else if Ascii.eqb e "u" then
              match r' with
              | String h1 (String h2 (String h3 (String h4 r''))) =>
                  if is_hex h1 && is_hex h2 && is_hex h3 && is_hex h4
                  then skip_string r''
                  else None
              | _ => None
              end
            else None
        | EmptyString => None
        end
      else if (32 <=? N_of_ascii c)%N then skip_string r
      else None
  end.

(** One digit or more. *)
Definition skip_digits (s : string) : option string :=
  match Wire.read_digits s with
  | (EmptyString, _) => None
  | (_, r) => Some r
  end.

(** A zero, or a digit other than zero and the digits after it. *)
Definition skip_integer (s : string) : option string :=
  match s with
  | String "0" r => Some r
  | String c r => if Wire.is_digit c then Some (snd (Wire.read_digits r)) else None
  | EmptyString => None
  end.

Definition skip_fraction (s : string) : option string :=
  match s with
  | String "." r => skip_digits r
  | _ => Some s
  end.

Definition skip_exponent (s : string) : option string :=
  match s with
  | String c r =>
      if Ascii.eqb c "e" || Ascii.eqb c "E" then
        match r with
        | String sign r' =>
            if Ascii.eqb sign "+" || Ascii.eqb sign "-" then skip_digits r'
            else skip_digits r
        | EmptyString => None
        end
      else Some s
  | EmptyString => Some s
  end.

Definition skip_number (s : string) : option string :=
  let s := match s with String "-" r => r | _ => s end in
  match skip_integer s with
  | Some r =>
      match skip_fraction r with
      | Some r' => skip_exponent r'
      | None => None
      end
  | None => None
  end.

(** What follows one JSON value of the compact layout; [n] bounds the
    nesting and the number of items. *)
Fixpoint skip_value (n : nat) (s : string) {struct n} : option string :=
  match n with
  | O => None
  | S n =>
      match s with
      | String "[" (String "]" r) => Some r
      | String "[" r => skip_elements n r
      | String "{" (String "}" r) => Some r
      | String "{" r => skip_members n r
      | String c r =>
          if Ascii.eqb c Wire.dq then skip_string r
          else if Wire.is_digit c || Ascii.eqb c "-" then skip_number s
          else
            match Wire.expect "null" s, Wire.expect "true" s, Wire.expect "false" s with
            | Some r', _, _ => Some r'
            | _, Some r', _ => Some r'
            | _, _, Some r' => Some r'
            | _, _, _ => None
            end
      | EmptyString => None
      end
  end
with skip_elements (n : nat) (s : string) {struct n} : option string :=
  match n with
  | O => None
  | S n =>
      match skip_value n s with
      | Some (String "," r) => skip_elements n r
      | Some (String "]" r) => Some r
      | _ => None
      end
  end
with skip_members (n : nat) (s : string) {struct n} : option string :=
  match n with
  | O => None
  | S n =>
      match s with
      | String c k =>
          if Ascii.eqb c Wire.dq then
            match skip_string k with
            | Some (String ":" r) =>
                match skip_value n r with
                | Some (String "," r') => skip_members n r'
                | Some (String "}" r') => Some r'
                | _ => None
                end
            | _ => None
            end
          else None
      | EmptyString => None
      end
  end.

(** [raw] is one JSON value: read in front of the closing brace of the
    envelope, it ends at that brace. *)
Definition delimited (raw : bytes) : Prop :=
  skip_value (String.length (raw ++ "}")) (raw ++ "}") = Some "}".

Section Codec.

Context {collaborators : Collaborators} {codec : PayloadCodec}.

Definition Marshal_body (t : OperationType) (body : result bytes) : result bytes :=
  match body with
  | Ok raw => Ok (Wire.render_envelope t raw)
  | Failed e => Failed e
  end.

Definition Marshal (o : Operation) : result bytes :=
  let t := Type_ (H o) in
  if Wire.all_plain t then
    match B o with
    | nilBody => Marshal_body t (Ok "null")
    | valueOf k ob => Marshal_body t (marshal_payload k ob)
    | pointerTo k (Some ob) => Marshal_body t (marshal_payload k ob)
    | pointerTo _ None => Marshal_body t (Ok "null")
    | foreign _ => Wire.unsupported
    end
  else Wire.unsupported.

Definition Unmarshal_envelop (b : bytes) : result (Header * RawMessage) :=
  match Wire.expect ("{" ++ Wire.quote "H" ++ ":{" ++ Wire.quote "type" ++ ":") b with
  | Some r1 =>
      match Wire.read_string r1 with
      | Some (t, r2) =>
          match Wire.expect ("}," ++ Wire.quote "B" ++ ":") r2 with
          | Some r3 =>
              match skip_value (String.length r3) r3 with
              | Some (String "}" EmptyString) =>
                  let raw := substring 0 (String.length r3 - 1) r3 in
                  Ok ({| Type_ := t |}, if raw =? "null" then EmptyString else raw)
              | _ => Wire.unsupported
              end
          | None => Wire.unsupported
          end
      | None => Wire.unsupported
      end
  | None => Wire.unsupported
  end.

Definition json : JSON := {|
  json_Marshal := Marshal;
  json_Unmarshal_envelop := Unmarshal_envelop;
  json_Unmarshal := unmarshal_payload
|}.

End Codec.

(** ** A payment with a target and an amount *)

(** The characters of a string as [json.Marshal] writes them between the
    quotes: a plain character stands for itself, and the octet 255, which
    occurs in no UTF-8 text, is replaced by the escape of U+FFFD. *)
Fixpoint write_chars (s : string) : option string :=
  match s with
  | EmptyString => Some EmptyString
  | String c r =>
      match write_chars r with
      | Some w =>
          if Wire.plain c then Some (String c w)
          else if Ascii.eqb c "255" then Some (replacement_escape ++ w)
          else None
      | None => None
      end
  end.

(** The characters of a string up to its closing quote as [json.Unmarshal]
    reads them, and what follows: the escape of U+FFFD gives the three
    octets of its UTF-8 form. *)
Fixpoint read_chars (s : string) : option (string * string) :=
  match s with
  | EmptyString => None
  | String c r =>
      if Ascii.eqb c Wire.dq then Some (EmptyString, r)
      else if Ascii.eqb c backslash then
        match r with
        | String "u" (String "f" (String "f" (String "f" (String "d" r')))) =>
            match read_chars r' with
            | Some (w, r'') =>
                Some (String "239" (String "191" (String "189" w)), r'')
            | None => None
            end
        | _ => None
        end
      else if Wire.plain c then
        match read_chars r with
        | Some (w, r') => Some (String c w, r')
        | None => None
        end
      else None
  end.

(** Modelled from the spec: the payload structs are declared in sibling
    files of the package and are not among the sources embedded here.  The
    spec gives a payment a target address, a string, and an amount, and
    writes a payload on the wire as the object of its fields; the keys
    [target] and [amount] are chosen here.  The struct is [Wire.Fields]. *)
Definition marshal_Fields (f : Wire.Fields) : result bytes :=
  match write_chars (Wire.Target f) with
  | Some w =>
      if (Wire.Amount f <? 2 ^ 64)%N then
        Ok ("{" ++ Wire.quote "target" ++ ":" ++ Wire.quote w ++ ","
                ++ Wire.quote "amount" ++ ":" ++ Wire.decimal (Wire.Amount f) ++ "}")
      else Wire.unsupported
  | None => Wire.unsupported
  end.

Definition unmarshal_Fields (b : bytes) : result Wire.Fields :=
  match Wire.expect ("{" ++ Wire.quote "target" ++ ":" ++ String Wire.dq "") b with
  | Some r1 =>
      match read_chars r1 with
      | Some (t, r2) =>
          match Wire.expect ("," ++ Wire.quote "amount" ++ ":") r2 with
          | Some r3 =>
              match Wire.read_number r3 with
              | Some (a, String "}" EmptyString) =>
                  if (a <? 2 ^ 64)%N
                  then Ok {| Wire.Target := t; Wire.Amount := a |}
                  else Wire.unsupported
              | _ => Wire.unsupported
              end
          | None => Wire.unsupported
          end
      | None => Wire.unsupported
      end
  | None => Wire.unsupported
  end.

Definition fields_codec : PayloadCodec (collaborators := Wire.collaborators) := {|
  marshal_payload := fun _ => marshal_Fields;
  unmarshal_payload := fun _ => unmarshal_Fields
|}.

(** A payment to a target that is not UTF-8 text: the one octet 255. *)
Definition odd_payment : Body :=
  valueOf Payment {| Wire.Target := String "255" ""; Wire.Amount := 1 |}.

(** The same payment with U+FFFD for target. *)
Definition replaced_payment : Body :=
  valueOf Payment
    {| Wire.Target := String "239" (String "191" (String "189" ""));
       Wire.Amount := 1 |}.

Definition odd_payment_wire : bytes :=
  Wire.render_envelope "payment"
    ("{" ++ Wire.quote "target" ++ ":" ++ Wire.quote replacement_escape ++ ","
         ++ Wire.quote "amount" ++ ":1}").

End Envelope.

(** * Properties *)

(** ** Registry *)

Ltac string_cases :=
  repeat match goal with
    | |- context [String.eqb ?a ?b] => destruct (String.eqb_spec a b)
    | HE : context [String.eqb ?a ?b] |- _ => destruct (String.eqb_spec a b)
    end.

Lemma InStringArray_from_found (a : list string) (s : string) (i : Z) :
  snd (InStringArray_from i a s) = true <-> In s a.
Proof.
  revert i; induction a as [|h a IH]; intros i; simpl.
  - split; [discriminate | tauto].
  - destruct (String.eqb_spec h s) as [E|E]; simpl.
    + split; auto.
    + rewrite IH. split; [tauto | intros [C|C]; [contradiction | exact C]].
Qed.

Lemma IsValidOperationType_In (s : string) :
  IsValidOperationType s = true <-> In s canonical_tags.
Proof.
  unfold IsValidOperationType, InStringArray.
  rewrite <- (InStringArray_from_found canonical_tags s 0).
  unfold canonical_tags, TypeCreateAccount, TypePayment, TypeCongressVoting,
    TypeCongressVotingResult, TypeCollectTxFee, TypeInflation,
    TypeUnfreezingRequest, TypeInflationPF.
  destruct (InStringArray_from 0 _ s); simpl; tauto.
Qed.

Lemma IsNormalOperation_In (t : OperationType) :
  IsNormalOperation t = true <-> In t normal_tags.
Proof.
  unfold IsNormalOperation, normal_tags, TypeCreateAccount, TypePayment,
    TypeCongressVoting, TypeCongressVotingResult, TypeUnfreezingRequest,
    TypeInflationPF.
  simpl; string_cases; simpl; split; intros C; subst;
    try reflexivity; try discriminate; try tauto.
  repeat (destruct C as [C|C]; [congruence|]). contradiction.
Qed.

Lemma normal_tags_canonical (t : string) : In t normal_tags -> In t canonical_tags.
Proof.
  unfold normal_tags, canonical_tags; simpl; tauto.
Qed.

(** C7. [IsValidOperationType] answers true exactly on the eight canonical
    tag strings, compared octet for octet: a tag that differs from a
    canonical one only by case or by surrounding blanks is refused. *)
Theorem IsValidOperationType_exact :
  (forall s : string,
     IsValidOperationType s = true <->
     s = "create-account" \/ s = "payment" \/ s = "congress-voting"
     \/ s = "congress-voting-result" \/ s = "collect-tx-fee"
     \/ s = "inflation" \/ s = "unfreezing-request" \/ s = "inflation-pf")
  /\ IsValidOperationType "Payment" = false
  /\ IsValidOperationType "PAYMENT" = false
  /\ IsValidOperationType " payment" = false
  /\ IsValidOperationType "payment " = false
  /\ IsValidOperationType "" = false.
Proof.
  split; [|repeat split; reflexivity].
  intros s. rewrite IsValidOperationType_In. unfold canonical_tags; simpl.
  intuition congruence.
Qed.

(** C8. [IsNormalOperation] is defined on every string; it answers true
    exactly on the six tags create-account, payment, congress-voting,
    congress-voting-result, unfreezing-request and inflation-pf, false on
    collect-tx-fee and inflation, and false on every string that is not a
    valid tag. *)
Theorem IsNormalOperation_spec :
  (forall t : OperationType,
     IsNormalOperation t = true <->
     t = TypeCreateAccount \/ t = TypePayment \/ t = TypeCongressVoting
     \/ t = TypeCongressVotingResult \/ t = TypeUnfreezingRequest
     \/ t = TypeInflationPF)
  /\ IsNormalOperation TypeCollectTxFee = false
  /\ IsNormalOperation TypeInflation = false
  /\ (forall t : OperationType,
        IsValidOperationType t = false -> IsNormalOperation t = false).
Proof.
  split; [|split; [reflexivity|split; [reflexivity|]]].
  - intros t. rewrite IsNormalOperation_In.
    unfold normal_tags, TypeCreateAccount, TypePayment, TypeCongressVoting,
      TypeCongressVotingResult, TypeUnfreezingRequest, TypeInflationPF; simpl.
    intuition congruence.
  - intros t Hinvalid.
    destruct (IsNormalOperation t) eqn:E; [|reflexivity].
    apply IsNormalOperation_In, normal_tags_canonical, IsValidOperationType_In in E.
    congruence.
Qed.

Lemma IsNormalOperation_spec_witness :
  IsValidOperationType "bogus" = false /\ IsNormalOperation "bogus" = false.
Proof.
  split; [reflexivity|].
  apply (proj2 (proj2 (proj2 IsNormalOperation_spec)) "bogus"). reflexivity.
Defined.

(** ** Factory and codec *)

Section Properties.

Context {collaborators : Collaborators} {json : JSON}.

Lemma discriminant_canonical (k : Variant) : In (discriminant k) canonical_tags.
Proof.
  destruct k; unfold canonical_tags; simpl; tauto.
Qed.

Lemma discriminant_inj (k k' : Variant) :
  discriminant k = discriminant k' -> k = k'.
Proof.
  destruct k, k'; simpl; intros E; try reflexivity; discriminate E.
Qed.

Lemma canonical_discriminant (t : string) :
  In t canonical_tags -> exists k, t = discriminant k.
Proof.
  unfold canonical_tags; simpl.
  intros [E|[E|[E|[E|[E|[E|[E|[E|[]]]]]]]]]; subst t.
  - now exists CreateAccount.
  - now exists Payment.
  - now exists CongressVoting.
  - now exists CongressVotingResult.
  - now exists CollectTxFee.
  - now exists Inflation.
  - now exists UnfreezeRequest.
  - now exists InflationPF.
Qed.

Lemma switch_type_valueOf (k : Variant) (ob : payload k) :
  switch_type (valueOf k ob) = Some (discriminant k).
Proof.
  destruct k; reflexivity.
Qed.

Lemma switch_type_default (opb : Body) :
  registered opb = false -> switch_type opb = None.
Proof.
  destruct opb; simpl; intros E; try reflexivity; discriminate E.
Qed.

Lemma UnmarshalBodyJSON_known (k : Variant) (b : bytes) :
  UnmarshalBodyJSON (discriminant k) b = decode_as k b.
Proof.
  destruct k; reflexivity.
Qed.

Lemma UnmarshalBodyJSON_unknown (t : OperationType) (b : bytes) :
  ~ In t canonical_tags ->
  UnmarshalBodyJSON t b = ret (nilBody, Some InvalidOperation).
Proof.
  unfold canonical_tags, UnmarshalBodyJSON, TypeCreateAccount, TypePayment,
    TypeCongressVoting, TypeCongressVotingResult, TypeCollectTxFee,
    TypeInflation, TypeUnfreezingRequest, TypeInflationPF; simpl.
  intros Hout.
  string_cases; subst; try reflexivity; exfalso; apply Hout; tauto.
Qed.

Lemma decode_as_eq (k : Variant) (b : bytes) :
  decode_as k b =
  ([ {| call_data := b; call_into := into k |} ],
   match json_Unmarshal k b with
   | Ok ob => (valueOf k ob, None)
   | Failed e => (nilBody, Some e)
   end).
Proof.
  unfold decode_as, unmarshal, bind, ret.
  destruct (json_Unmarshal k b); reflexivity.
Qed.

Lemma UnmarshalJSON_envelope_failed (o : Operation) (b : bytes) (e : Err) :
  json_Unmarshal_envelop b = Failed e ->
  UnmarshalJSON o b =
  ([ {| call_data := b; call_into := into_envelop |} ], (o, Some e)).
Proof.
  intros E. unfold UnmarshalJSON, unmarshal_envelop, bind, ret.
  rewrite E. reflexivity.
Qed.

Lemma UnmarshalJSON_envelope_ok (o : Operation) (b : bytes) (h : Header)
    (raw : RawMessage) :
  json_Unmarshal_envelop b = Ok (h, raw) ->
  UnmarshalJSON o b =
  ({| call_data := b; call_into := into_envelop |}
     :: calls (UnmarshalBodyJSON (Type_ h) raw),
   match value (UnmarshalBodyJSON (Type_ h) raw) with
   | (body, None) => ({| H := h; B := body |}, None)
   | (_, Some e) => ({| H := h; B := B o |}, Some e)
   end).
Proof.
  intros E. unfold UnmarshalJSON, unmarshal_envelop, bind, ret, calls, value.
  rewrite E.
  destruct (UnmarshalBodyJSON (Type_ h) raw) as [tr [body [e|]]]; simpl;
    now rewrite ?app_nil_r.
Qed.

Lemma UnmarshalJSON_known (o : Operation) (b : bytes) (k : Variant)
    (raw : RawMessage) :
  json_Unmarshal_envelop b = Ok ({| Type_ := discriminant k |}, raw) ->
  UnmarshalJSON o b =
  ([ {| call_data := b; call_into := into_envelop |};
     {| call_data := raw; call_into := into k |} ],
   match json_Unmarshal k raw with
   | Ok ob => ({| H := {| Type_ := discriminant k |}; B := valueOf k ob |}, None)
   | Failed e => ({| H := {| Type_ := discriminant k |}; B := B o |}, Some e)
   end).
Proof.
  intros E. rewrite (UnmarshalJSON_envelope_ok _ _ _ _ E); simpl.
  rewrite UnmarshalBodyJSON_known, decode_as_eq; unfold calls, value; simpl.
  destruct (json_Unmarshal k raw); reflexivity.
Qed.

Lemma UnmarshalJSON_unknown (o : Operation) (b : bytes) (t : OperationType)
    (raw : RawMessage) :
  ~ In t canonical_tags ->
  json_Unmarshal_envelop b = Ok ({| Type_ := t |}, raw) ->
  UnmarshalJSON o b =
  ([ {| call_data := b; call_into := into_envelop |} ],
   ({| H := {| Type_ := t |}; B := B o |}, Some InvalidOperation)).
Proof.
  intros Hout E. rewrite (UnmarshalJSON_envelope_ok _ _ _ _ E); simpl.
  rewrite (UnmarshalBodyJSON_unknown _ _ Hout). reflexivity.
Qed.

Lemma tag_known_or_not (t : OperationType) :
  (exists k, t = discriminant k) \/ ~ In t canonical_tags.
Proof.
  destruct (in_dec string_dec t canonical_tags) as [I|I].
  - left. now apply canonical_discriminant.
  - now right.
Qed.

(** C5. For a payload that is a struct of one of the eight registered
    types, [NewOperation] succeeds and returns the operation whose header
    holds the tag of that type and whose body is the payload itself.  It
    asks nothing of the payload: one that its own [IsWellFormed] refuses
    under some configuration is accepted all the same. *)
Theorem NewOperation_registered (k : Variant) (ob : payload k) :
  NewOperation (valueOf k ob)
  = ({| H := {| Type_ := discriminant k |}; B := valueOf k ob |}, None)
  /\ (forall (conf : Config) (e : Err),
        Body_IsWellFormed (valueOf k ob) conf = Returns (Some e) ->
        snd (NewOperation (valueOf k ob)) = None
        /\ B (fst (NewOperation (valueOf k ob))) = valueOf k ob).
Proof.
  assert (E : NewOperation (valueOf k ob)
              = ({| H := {| Type_ := discriminant k |}; B := valueOf k ob |}, None)).
  { unfold NewOperation. now rewrite switch_type_valueOf. }
  split; [exact E|].
  intros conf e _. rewrite E. split; reflexivity.
Qed.

(** C6. For a payload that is not a struct of one of the eight registered
    types (the nil interface, a pointer, a value of another type),
    [NewOperation] fails with [UnknownOperationType] and the operation it
    returns is the zero value. *)
Theorem NewOperation_unregistered (opb : Body) :
  registered opb = false ->
  NewOperation opb = (zero_Operation, Some UnknownOperationType).
Proof.
  intros E. unfold NewOperation. now rewrite (switch_type_default _ E).
Qed.

(** C10. The type switch of [NewOperation] matches the struct types only.
    A pointer to one of the eight structs, nil or not, takes the default
    arm and is refused with [UnknownOperationType], although it satisfies
    [Body]: both methods can be called through a non-nil pointer and answer
    what the struct answers. *)
Theorem NewOperation_pointer (k : Variant) (target : option (payload k)) :
  switch_type (pointerTo k target) = None
  /\ NewOperation (pointerTo k target) = (zero_Operation, Some UnknownOperationType)
  /\ (forall (ob : payload k) (conf : Config),
        Body_IsWellFormed (pointerTo k (Some ob)) conf = Body_IsWellFormed (valueOf k ob) conf
        /\ Body_HasFee (pointerTo k (Some ob)) = Body_HasFee (valueOf k ob)).
Proof.
  repeat split.
Qed.

(** C9. [Operation.IsWellFormed] and [Operation.HasFee] answer what the
    same method of the body answers, for the same configuration.  The
    header plays no part, and the error of a payload, or its absence,
    reaches the caller as it is. *)
Theorem Operation_delegates (o : Operation) (conf : Config) :
  Operation_IsWellFormed o conf = Body_IsWellFormed (B o) conf
  /\ Operation_HasFee o = Body_HasFee (B o)
  /\ (forall (h : Header) (k : Variant) (ob : payload k),
        Operation_IsWellFormed {| H := h; B := valueOf k ob |} conf
        = Returns (IsWellFormed ob conf)
        /\ Operation_HasFee {| H := h; B := valueOf k ob |} = Returns (HasFee ob))
  /\ (forall (h : Header) (v : Foreign),
        Operation_IsWellFormed {| H := h; B := foreign v |} conf
        = Returns (IsWellFormed v conf)
        /\ Operation_HasFee {| H := h; B := foreign v |} = Returns (HasFee v)).
Proof.
  repeat split.
Qed.

(** C4. The header of an operation names the struct type of its body.
    [NewOperation] establishes it: for each of the eight struct types and
    every payload of that type it succeeds, keeps the payload as the body
    and puts in the header the tag that the registry gives to that type;
    no other payload yields an operation without error.  [UnmarshalJSON]
    establishes it again: when it returns without error, the receiver
    holds the tag that was read and, as body, the struct of the type that
    this tag selects, decoded from the raw body. *)
Theorem header_matches_body_established :
  (forall (k : Variant) (ob : payload k),
     NewOperation (valueOf k ob)
     = ({| H := {| Type_ := discriminant k |}; B := valueOf k ob |}, None)
     /\ header_matches_body (fst (NewOperation (valueOf k ob))))
  /\ (forall (opb : Body) (op : Operation),
        NewOperation opb = (op, None) ->
        header_matches_body op /\ B op = opb)
  /\ (forall (o : Operation) (b : bytes) (o' : Operation),
        value (UnmarshalJSON o b) = (o', None) ->
        header_matches_body o'
        /\ exists (k : Variant) (raw : RawMessage) (ob : payload k),
             json_Unmarshal_envelop b = Ok ({| Type_ := discriminant k |}, raw)
             /\ json_Unmarshal k raw = Ok ob
             /\ o' = {| H := {| Type_ := discriminant k |}; B := valueOf k ob |}).
Proof.
  assert (Hnew : forall (k : Variant) (ob : payload k),
            NewOperation (valueOf k ob)
            = ({| H := {| Type_ := discriminant k |}; B := valueOf k ob |}, None)).
  { intros k ob. unfold NewOperation. now rewrite switch_type_valueOf. }
  split; [|split].
  - intros k ob. split; [apply Hnew|]. rewrite Hnew. reflexivity.
  - intros opb op.
    destruct opb as [|k ob|k target|v];
      try (unfold NewOperation; simpl; discriminate).
    rewrite Hnew. intros E; injection E as <-. split; reflexivity.
  - intros o b o'.
    destruct (json_Unmarshal_envelop b) as [[[t] raw]|e] eqn:Henv.
    + destruct (tag_known_or_not t) as [[k ->]|Hout].
      * rewrite (UnmarshalJSON_known _ _ _ _ Henv); unfold value; simpl.
        destruct (json_Unmarshal k raw) as [ob|e] eqn:Hbody; [|discriminate].
        intros E; injection E as <-. split; [reflexivity|].
        exists k, raw, ob. auto.
      * rewrite (UnmarshalJSON_unknown _ _ _ _ Hout Henv). discriminate.
    + rewrite (UnmarshalJSON_envelope_failed _ _ _ Henv). discriminate.
Qed.

(** C3, amended.  For a tag outside the eight known ones,
    [UnmarshalBodyJSON] returns a nil body and [InvalidOperation] without
    any call to the decoder.  [UnmarshalJSON] then returns that error and
    leaves the body of the receiver as it was; the header of the receiver
    holds the tag that was read. *)
Theorem UnmarshalBodyJSON_invalid_tag (t : OperationType) :
  ~ In t canonical_tags ->
  (forall b : bytes,
     UnmarshalBodyJSON t b = ([], (nilBody, Some InvalidOperation)))
  /\ (forall (o : Operation) (bs : bytes) (raw : RawMessage),
        json_Unmarshal_envelop bs = Ok ({| Type_ := t |}, raw) ->
        UnmarshalJSON o bs =
        ([ {| call_data := bs; call_into := into_envelop |} ],
         ({| H := {| Type_ := t |}; B := B o |}, Some InvalidOperation))).
Proof.
  intros Hout. split.
  - intros b. now rewrite (UnmarshalBodyJSON_unknown _ _ Hout).
  - intros o bs raw Henv. exact (UnmarshalJSON_unknown _ _ _ _ Hout Henv).
Qed.

(** C1, amended.  [UnmarshalJSON] ends in one of three ways.  It returns
    no error, and then header and body of the receiver both come from the
    input, the body being the struct that the tag selects.  Or the envelope
    is not read, and then the receiver is what it was.  Or the envelope is
    read and the body is not, and then the body of the receiver is what it
    was while its header is the one that was read. *)
Theorem UnmarshalJSON_outcomes (o : Operation) (b : bytes) :
  match value (UnmarshalJSON o b) with
  | (o', None) =>
      exists (raw : RawMessage) (k : Variant) (ob : payload k),
        json_Unmarshal_envelop b = Ok (H o', raw)
        /\ Type_ (H o') = discriminant k
        /\ json_Unmarshal k raw = Ok ob
        /\ B o' = valueOf k ob
  | (o', Some e) =>
      (json_Unmarshal_envelop b = Failed e /\ o' = o)
      \/ (exists (h : Header) (raw : RawMessage),
            json_Unmarshal_envelop b = Ok (h, raw)
            /\ snd (value (UnmarshalBodyJSON (Type_ h) raw)) = Some e
            /\ H o' = h /\ B o' = B o)
  end.
Proof.
  destruct (json_Unmarshal_envelop b) as [[[t] raw]|e] eqn:Henv.
  - destruct (tag_known_or_not t) as [[k ->]|Hout].
    + rewrite (UnmarshalJSON_known _ _ _ _ Henv); unfold value; simpl.
      destruct (json_Unmarshal k raw) as [ob|e] eqn:Hbody.
      * exists raw, k, ob. simpl. auto.
      * right. exists {| Type_ := discriminant k |}, raw. cbn [Type_ H B].
        rewrite UnmarshalBodyJSON_known, decode_as_eq, Hbody. simpl. auto.
    + rewrite (UnmarshalJSON_unknown _ _ _ _ Hout Henv); unfold value; simpl.
      right. exists {| Type_ := t |}, raw. cbn [Type_ H B].
      rewrite (UnmarshalBodyJSON_unknown _ _ Hout). simpl. auto.
  - rewrite (UnmarshalJSON_envelope_failed _ _ _ Henv); unfold value; simpl.
    left. auto.
Qed.

End Properties.

(** ** The properties at work on the reference codec *)

(** The scenario of the spec: a payment of 100 to GABC, encoded and
    decoded. *)
Example payment_scenario :
  json_Marshal Wire.payment_op = Ok Wire.payment_wire
  /\ UnmarshalJSON zero_Operation Wire.payment_wire =
     ([ {| call_data := Wire.payment_wire; call_into := into_envelop |};
        {| call_data := Wire.render_Fields {| Wire.Target := "GABC"; Wire.Amount := 100 |};
           call_into := into Payment |} ],
      ({| H := {| Type_ := "payment" |};
          B := valueOf Payment {| Wire.Target := "GABC"; Wire.Amount := 100 |} |},
       None)).
Proof.
  split; reflexivity.
Qed.

(** A test double as body: the operation answers what the double answers. *)
Example double_scenario :
  Operation_IsWellFormed {| H := {| Type_ := "payment" |}; B := Wire.failing_double |} tt
  = Returns (Some (ForeignError "refused"))
  /\ Operation_HasFee {| H := {| Type_ := "payment" |}; B := Wire.failing_double |}
     = Returns false.
Proof.
  split; reflexivity.
Qed.

(** A body that does not fit the tag is a failure of the body step. *)
Example mismatched_body_scenario :
  value (UnmarshalJSON zero_Operation Wire.inflation_array_wire)
  = ({| H := {| Type_ := "inflation" |}; B := nilBody |},
     Some (ForeignError "json: unsupported input")).
Proof.
  reflexivity.
Qed.

Lemma NewOperation_registered_witness :
  Body_IsWellFormed Wire.gabc_0 tt = Returns (Some (ForeignError "invalid amount"))
  /\ snd (NewOperation Wire.gabc_0) = None
  /\ B (fst (NewOperation Wire.gabc_0)) = Wire.gabc_0.
Proof.
  split; [reflexivity|].
  apply (proj2 (NewOperation_registered (collaborators := Wire.collaborators)
                  Payment {| Wire.Target := "GABC"; Wire.Amount := 0 |})
               tt (ForeignError "invalid amount")).
  reflexivity.
Defined.

Lemma NewOperation_unregistered_witness :
  registered Wire.failing_double = false
  /\ NewOperation Wire.failing_double = (zero_Operation, Some UnknownOperationType).
Proof.
  split; [reflexivity|].
  apply (NewOperation_unregistered Wire.failing_double). reflexivity.
Defined.

Lemma header_matches_body_established_witness :
  (NewOperation Wire.gabc_0 = ({| H := {| Type_ := "payment" |}; B := Wire.gabc_0 |}, None)
   /\ header_matches_body {| H := {| Type_ := "payment" |}; B := Wire.gabc_0 |}
   /\ B {| H := {| Type_ := "payment" |}; B := Wire.gabc_0 |} = Wire.gabc_0)
  /\ (value (UnmarshalJSON zero_Operation Wire.payment_wire) = (Wire.payment_op, None)
      /\ header_matches_body Wire.payment_op).
Proof.
  split; (split; [reflexivity|]).
  - apply (proj1 (proj2 header_matches_body_established) Wire.gabc_0). reflexivity.
  - apply (proj2 (proj2 header_matches_body_established)
             zero_Operation Wire.payment_wire Wire.payment_op).
    reflexivity.
Defined.

Lemma UnmarshalBodyJSON_invalid_tag_witness :
  ~ In "bogus" canonical_tags
  /\ UnmarshalBodyJSON "bogus" "[]" = ([], (nilBody, Some InvalidOperation))
  /\ UnmarshalJSON Wire.payment_op Wire.bogus_wire =
     ([ {| call_data := Wire.bogus_wire; call_into := into_envelop |} ],
      ({| H := {| Type_ := "bogus" |}; B := Wire.gabc_100 |}, Some InvalidOperation)).
Proof.
  assert (Hout : ~ In "bogus" canonical_tags).
  { unfold canonical_tags; simpl. intuition discriminate. }
  split; [exact Hout|]. split.
  - apply (proj1 (UnmarshalBodyJSON_invalid_tag "bogus" Hout) "[]").
  - apply (proj2 (UnmarshalBodyJSON_invalid_tag "bogus" Hout) Wire.payment_op
             Wire.bogus_wire
             (Wire.render_Fields {| Wire.Target := "GABC"; Wire.Amount := 100 |})).
    reflexivity.
Defined.

(** C1, as stated, fails.  The receiver holds a payment; the input is an
    envelope tagged inflation whose body is an array.  The envelope is read,
    the body is refused, and the receiver is left with the header of the
    input over the body it had: the call failed and the receiver changed. *)
Lemma UnmarshalJSON_not_atomic :
  value (UnmarshalJSON Wire.payment_op Wire.inflation_array_wire)
  = ({| H := {| Type_ := "inflation" |}; B := Wire.gabc_100 |},
     Some (ForeignError "json: unsupported input"))
  /\ ~ atomic_decode Wire.payment_op Wire.inflation_array_wire.
Proof.
  assert (E : value (UnmarshalJSON Wire.payment_op Wire.inflation_array_wire)
              = ({| H := {| Type_ := "inflation" |}; B := Wire.gabc_100 |},
                 Some (ForeignError "json: unsupported input"))) by reflexivity.
  split; [exact E|].
  unfold atomic_decode. rewrite E. intros [C|C]; [discriminate C|].
  apply (f_equal (fun op => Type_ (H op))) in C. discriminate C.
Qed.

(** C3, as stated, fails in its last part.  The receiver is the zero
    operation; the input is a well-formed envelope whose tag is not
    registered.  The call fails with [InvalidOperation], and the receiver
    is no longer the zero operation: its header holds the unknown tag. *)
Lemma UnmarshalJSON_invalid_tag_marks_receiver :
  ~ In "bogus" canonical_tags
  /\ value (UnmarshalJSON zero_Operation Wire.bogus_wire)
     = ({| H := {| Type_ := "bogus" |}; B := nilBody |}, Some InvalidOperation)
  /\ fst (value (UnmarshalJSON zero_Operation Wire.bogus_wire)) <> zero_Operation.
Proof.
  split; [unfold canonical_tags; simpl; intuition discriminate|].
  split; [reflexivity|].
  intros C. apply (f_equal (fun op => Type_ (H op))) in C. discriminate C.
Qed.

(** * Further properties of the operation package *)

Section Codec.

Context {collaborators : Collaborators} {json : JSON}.

Lemma IsValidOperationType_discriminant (k : Variant) :
  IsValidOperationType (discriminant k) = true.
Proof.
  apply IsValidOperationType_In, discriminant_canonical.
Qed.

Lemma IsValidOperationType_false (t : string) :
  IsValidOperationType t = false <-> ~ In t canonical_tags.
Proof.
  rewrite <- IsValidOperationType_In.
  destruct (IsValidOperationType t); split; congruence.
Qed.

(** X1. [UnmarshalJSON] returns no error exactly when the envelope is
    read, its tag is one of the eight and the raw body is read as the
    struct of that tag. *)
Theorem UnmarshalJSON_succeeds_iff (o : Operation) (b : bytes) :
  snd (value (UnmarshalJSON o b)) = None <->
  exists (k : Variant) (raw : RawMessage) (ob : payload k),
    json_Unmarshal_envelop b = Ok ({| Type_ := discriminant k |}, raw)
    /\ json_Unmarshal k raw = Ok ob.
Proof.
  split.
  - destruct (json_Unmarshal_envelop b) as [[[t] raw]|e] eqn:Henv.
    + destruct (tag_known_or_not t) as [[k ->]|Hout].
      * rewrite (UnmarshalJSON_known _ _ _ _ Henv); unfold value; simpl.
        destruct (json_Unmarshal k raw) as [ob|e] eqn:Hbody; [|discriminate].
        intros _. now exists k, raw, ob.
      * rewrite (UnmarshalJSON_unknown _ _ _ _ Hout Henv). discriminate.
    + rewrite (UnmarshalJSON_envelope_failed _ _ _ Henv). discriminate.
  - intros (k & raw & ob & Henv & Hbody).
    rewrite (UnmarshalJSON_known _ _ _ _ Henv); unfold value; simpl.
    now rewrite Hbody.
Qed.

(** X2. What the receiver held before the call has no influence on the
    calls made to the decoder nor on the error returned, and when the call
    succeeds it has none on the operation left in the receiver. *)
Theorem UnmarshalJSON_forgets_receiver (o1 o2 : Operation) (b : bytes) :
  calls (UnmarshalJSON o1 b) = calls (UnmarshalJSON o2 b)
  /\ snd (value (UnmarshalJSON o1 b)) = snd (value (UnmarshalJSON o2 b))
  /\ (snd (value (UnmarshalJSON o1 b)) = None ->
      value (UnmarshalJSON o1 b) = value (UnmarshalJSON o2 b)).
Proof.
  destruct (json_Unmarshal_envelop b) as [[[t] raw]|e] eqn:Henv.
  - destruct (tag_known_or_not t) as [[k ->]|Hout].
    + rewrite !(UnmarshalJSON_known _ _ _ _ Henv); unfold calls, value; simpl.
      destruct (json_Unmarshal k raw); simpl; repeat split; congruence.
    + rewrite !(UnmarshalJSON_unknown _ _ _ _ Hout Henv); unfold calls, value; simpl.
      repeat split; congruence.
  - rewrite !(UnmarshalJSON_envelope_failed _ _ _ Henv); unfold calls, value; simpl.
    repeat split; congruence.
Qed.

(** X3. For the tag of a struct type, [UnmarshalBodyJSON] calls the
    decoder once, on the octets it was given and into that struct type; it
    returns the struct with no error, or a nil body with the error of the
    decoder. *)
Theorem UnmarshalBodyJSON_known_tag (k : Variant) (b : bytes) :
  UnmarshalBodyJSON (discriminant k) b =
  ([ {| call_data := b; call_into := into k |} ],
   match json_Unmarshal k b with
   | Ok ob => (valueOf k ob, None)
   | Failed e => (nilBody, Some e)
   end).
Proof.
  rewrite UnmarshalBodyJSON_known. apply decode_as_eq.
Qed.

(** X4. The switch of [UnmarshalBodyJSON] and the list of
    [IsValidOperationType] know the same tags: the tags that
    [IsValidOperationType] refuses are exactly those on which
    [UnmarshalBodyJSON] gives up with [InvalidOperation] before any
    decoding. *)
Theorem dispatch_agrees_with_registry (t : OperationType) (b : bytes) :
  IsValidOperationType t = false <->
  UnmarshalBodyJSON t b = ([], (nilBody, Some InvalidOperation)).
Proof.
  rewrite IsValidOperationType_false. split.
  - intros Hout. now rewrite (UnmarshalBodyJSON_unknown _ _ Hout).
  - intros E Hin. apply canonical_discriminant in Hin as [k ->].
    rewrite UnmarshalBodyJSON_known, decode_as_eq in E. discriminate E.
Qed.

(** X5. The tag in the header of an operation that [NewOperation] built,
    or that [UnmarshalJSON] decoded, is one that [IsValidOperationType]
    accepts. *)
Theorem produced_tags_are_valid :
  (forall (opb : Body) (op : Operation),
     NewOperation opb = (op, None) ->
     IsValidOperationType (Type_ (H op)) = true)
  /\ (forall (o : Operation) (b : bytes) (o' : Operation),
        value (UnmarshalJSON o b) = (o', None) ->
        IsValidOperationType (Type_ (H o')) = true).
Proof.
  split.
  - intros opb op.
    destruct opb as [|k ob|k target|v];
      try (unfold NewOperation; simpl; discriminate).
    unfold NewOperation. rewrite switch_type_valueOf.
    intros E; injection E as <-. apply IsValidOperationType_discriminant.
  - intros o b o'.
    destruct (json_Unmarshal_envelop b) as [[[t] raw]|e] eqn:Henv.
    + destruct (tag_known_or_not t) as [[k ->]|Hout].
      * rewrite (UnmarshalJSON_known _ _ _ _ Henv); unfold value; simpl.
        destruct (json_Unmarshal k raw); [|discriminate].
        intros E; injection E as <-. apply IsValidOperationType_discriminant.
      * rewrite (UnmarshalJSON_unknown _ _ _ _ Hout Henv). discriminate.
    + rewrite (UnmarshalJSON_envelope_failed _ _ _ Henv). discriminate.
Qed.

(** X6. [NewOperation] gives two structs the same tag exactly when they
    are of the same struct type. *)
Theorem NewOperation_tag_names_type (k k' : Variant) (ob : payload k)
    (ob' : payload k') :
  Type_ (H (fst (NewOperation (valueOf k ob))))
  = Type_ (H (fst (NewOperation (valueOf k' ob'))))
  <-> k = k'.
Proof.
  unfold NewOperation. rewrite !switch_type_valueOf. simpl. split.
  - apply discriminant_inj.
  - now intros ->.
Qed.

(** X7. The operation that comes with an error cannot be used: after a
    failed [NewOperation], and after a failed [UnmarshalJSON] into a zero
    operation, the body is the nil interface and both methods panic. *)
Theorem failed_operation_panics :
  (forall (opb : Body) (conf : Config),
     snd (NewOperation opb) <> None ->
     Operation_IsWellFormed (fst (NewOperation opb)) conf = Panics
     /\ Operation_HasFee (fst (NewOperation opb)) = Panics)
  /\ (forall (b : bytes) (conf : Config),
        snd (value (UnmarshalJSON zero_Operation b)) <> None ->
        Operation_IsWellFormed (fst (value (UnmarshalJSON zero_Operation b))) conf = Panics
        /\ Operation_HasFee (fst (value (UnmarshalJSON zero_Operation b))) = Panics).
Proof.
  split.
  - intros opb conf. unfold NewOperation.
    destruct (switch_type opb); simpl; [congruence|]. intros _. split; reflexivity.
  - intros b conf.
    destruct (json_Unmarshal_envelop b) as [[[t] raw]|e] eqn:Henv.
    + destruct (tag_known_or_not t) as [[k ->]|Hout].
      * rewrite (UnmarshalJSON_known _ _ _ _ Henv); unfold value; simpl.
        destruct (json_Unmarshal k raw); simpl; [congruence|].
        intros _. split; reflexivity.
      * rewrite (UnmarshalJSON_unknown _ _ _ _ Hout Henv); unfold value; simpl.
        intros _. split; reflexivity.
    + rewrite (UnmarshalJSON_envelope_failed _ _ _ Henv); unfold value; simpl.
      intros _. split; reflexivity.
Qed.

End Codec.

(** * Properties of net.go *)

Section NetProperties.

Context {platform : Platform}.

(** ** Free ports *)

Lemma found_in_In (i : Z) (excludes : list Z) :
  found_in i excludes = true <-> In i excludes.
Proof.
  induction excludes as [|e r IH]; simpl.
  - split; [discriminate | tauto].
  - destruct (Z.eqb_spec i e) as [E|E].
    + split; auto.
    + rewrite IH. split; [tauto | intros [C|C]; [congruence | exact C]].
Qed.

Lemma CheckPortInUse_dials (port : Z) :
  (1 <= port)%Z -> CheckPortInUse port = net_DialTimeout port.
Proof.
  intros Hp. unfold CheckPortInUse.
  destruct (Z.ltb_spec port 1); [lia | reflexivity].
Qed.

(** The loop from [i] on: it ends on 0 after passing over every port up to
    its bound, or on the first port that is neither excluded nor taken. *)
Lemma GetFreePort_from_spec (n : nat) (excludes : list Z) :
  forall i : Z,
    (1 <= i)%Z ->
    (GetFreePort_from n i excludes = 0%Z
     /\ forall q : Z,
          (i <= q)%Z -> (q < i + Z.of_nat n)%Z -> (q < 10000)%Z ->
          passed_over excludes q)
    \/ ((i <= GetFreePort_from n i excludes)%Z
        /\ (GetFreePort_from n i excludes < 10000)%Z
        /\ ~ In (GetFreePort_from n i excludes) excludes
        /\ net_DialTimeout (GetFreePort_from n i excludes) <> None
        /\ forall q : Z,
             (i <= q)%Z -> (q < GetFreePort_from n i excludes)%Z ->
             passed_over excludes q).
Proof.
  induction n as [|n IH]; intros i Hi.
  - left. split; [reflexivity|]. intros q ? ?. lia.
  - cbn [GetFreePort_from].
    destruct (Z.ltb_spec i 10000) as [Hlt|Hge].
    + assert (Hstep :
        forall (Hi_over : passed_over excludes i),
          (GetFreePort_from n (i + 1) excludes = 0%Z
           /\ forall q : Z,
                (i <= q)%Z -> (q < i + Z.of_nat (S n))%Z -> (q < 10000)%Z ->
                passed_over excludes q)
          \/ ((i <= GetFreePort_from n (i + 1) excludes)%Z
              /\ (GetFreePort_from n (i + 1) excludes < 10000)%Z
              /\ ~ In (GetFreePort_from n (i + 1) excludes) excludes
              /\ net_DialTimeout (GetFreePort_from n (i + 1) excludes) <> None
              /\ forall q : Z,
                   (i <= q)%Z -> (q < GetFreePort_from n (i + 1) excludes)%Z ->
                   passed_over excludes q)).
      { intros Hi_over.
        destruct (IH (i + 1)%Z ltac:(lia)) as [[E Hall]|(Hle & Hup & Hex & Hdial & Hall)].
        - left. split; [exact E|]. intros q Hq1 Hq2 Hq3.
          destruct (Z.eq_dec q i) as [->|Hne]; [exact Hi_over|].
          apply Hall; lia.
        - right. repeat split; try assumption; try lia.
          intros q Hq1 Hq2.
          destruct (Z.eq_dec q i) as [->|Hne]; [exact Hi_over|].
          apply Hall; lia. }
      destruct (found_in i excludes) eqn:Hfound.
      * apply Hstep. left. now apply found_in_In.
      * rewrite (CheckPortInUse_dials i Hi).
        destruct (net_DialTimeout i) as [e|] eqn:Hdial.
        -- right. repeat split; try lia.
           ++ intros Hin. apply found_in_In in Hin. congruence.
           ++ congruence.
        -- apply Hstep. now right.
    + left. split; [reflexivity|]. intros q ? ? ?. lia.
Qed.

Lemma GetFreePort_spec (excludes : list Z) :
  (GetFreePort excludes = 0%Z
   /\ forall q : Z, (1024 <= q < 10000)%Z -> passed_over excludes q)
  \/ ((1024 <= GetFreePort excludes < 10000)%Z
      /\ ~ In (GetFreePort excludes) excludes
      /\ net_DialTimeout (GetFreePort excludes) <> None
      /\ forall q : Z,
           (1024 <= q < GetFreePort excludes)%Z -> passed_over excludes q).
Proof.
  unfold GetFreePort.
  destruct (GetFreePort_from_spec (Z.to_nat (10000 - 1024)) excludes 1024%Z ltac:(lia))
    as [[E Hall]|(Hle & Hup & Hex & Hdial & Hall)].
  - left. split; [exact E|]. intros q Hq.
    apply Hall; lia.
  - right. repeat split; try assumption. intros q Hq. apply Hall; lia.
Qed.

(** X8. The port that [GetFreePort] returns is 0 or a port from 1024 to
    9999 that is not among the excluded ones and on which the dial
    failed. *)
Theorem GetFreePort_sound (excludes : list Z) :
  GetFreePort excludes = 0%Z
  \/ ((1024 <= GetFreePort excludes < 10000)%Z
      /\ ~ In (GetFreePort excludes) excludes
      /\ net_DialTimeout (GetFreePort excludes) <> None).
Proof.
  destruct (GetFreePort_spec excludes) as [[E _]|(Hr & Hex & Hdial & _)].
  - now left.
  - right. auto.
Qed.

(** X9. [GetFreePort] returns the first eligible port: when a port from
    1024 to 9999 is not excluded and the dial on it fails, the result is
    at least 1024 and at most that port. *)
Theorem GetFreePort_first (excludes : list Z) (q : Z) :
  (1024 <= q < 10000)%Z ->
  ~ In q excludes ->
  net_DialTimeout q <> None ->
  (1024 <= GetFreePort excludes <= q)%Z.
Proof.
  intros Hq Hex Hdial.
  destruct (GetFreePort_spec excludes) as [[E Hall]|(Hr & _ & _ & Hall)].
  - destruct (Hall q Hq) as [C|C]; contradiction.
  - destruct (Z_lt_le_dec q (GetFreePort excludes)) as [Hlt|Hle]; [|lia].
    destruct (Hall q ltac:(lia)) as [C|C]; contradiction.
Qed.

(** X10. [GetFreePort] returns 0 exactly when every port from 1024 to 9999
    is excluded or taken. *)
Theorem GetFreePort_none_iff (excludes : list Z) :
  GetFreePort excludes = 0%Z <->
  forall q : Z, (1024 <= q < 10000)%Z -> passed_over excludes q.
Proof.
  destruct (GetFreePort_spec excludes) as [[E Hall]|(Hr & Hex & Hdial & Hall)].
  - split; auto.
  - split; [lia|]. intros Hover.
    destruct (Hover (GetFreePort excludes) Hr) as [C|C]; contradiction.
Qed.

(** ** Paths *)

Lemma NormalizeURLPath_cases (s : string) :
  (NormalizeURLPath s = ""
   /\ (strings_TrimSpace s = "" \/ strings_TrimSpace s = "/"))
  \/ (NormalizeURLPath s = strings_TrimSpace s
      /\ strings_TrimSpace s <> "" /\ strings_TrimSpace s <> "/").
Proof.
  unfold NormalizeURLPath.
  destruct (strings_TrimSpace s) as [|c r] eqn:E;
    cbn [String.length Nat.ltb Nat.leb].
  - left. auto.
  - destruct (String.eqb_spec (String c r) "/") as [E'|E'].
    + left. auto.
    + right. repeat split; [discriminate | exact E'].
Qed.

(** X11. [NormalizeURLPath] never returns the root path: its result is
    empty exactly when the trimmed path is empty or the root, and is the
    trimmed path otherwise. *)
Theorem NormalizeURLPath_never_root (s : string) :
  NormalizeURLPath s <> "/"
  /\ (NormalizeURLPath s = "" <->
      strings_TrimSpace s = "" \/ strings_TrimSpace s = "/")
  /\ (NormalizeURLPath s = "" \/ NormalizeURLPath s = strings_TrimSpace s).
Proof.
  destruct (NormalizeURLPath_cases s) as [[E C]|(E & C1 & C2)]; rewrite E.
  - repeat split; auto. discriminate.
  - repeat split; auto; intros [C|C]; contradiction.
Qed.

(** X12. [NormalizeURLPath] is idempotent on [s] as soon as trimming is:
    when trimming the trimmed [s] changes nothing and trimming the empty
    string gives the empty string. *)
Theorem NormalizeURLPath_idempotent (s : string) :
  strings_TrimSpace (strings_TrimSpace s) = strings_TrimSpace s ->
  strings_TrimSpace "" = "" ->
  NormalizeURLPath (NormalizeURLPath s) = NormalizeURLPath s.
Proof.
  intros Hidem Hempty.
  destruct (NormalizeURLPath_cases s) as [[E C]|(E & C1 & C2)]; rewrite E.
  - unfold NormalizeURLPath. now rewrite Hempty.
  - unfold NormalizeURLPath at 1. rewrite Hidem.
    destruct (strings_TrimSpace s) as [|c r]; [contradiction|].
    cbn [String.length Nat.ltb Nat.leb].
    destruct (String.eqb_spec (String c r) "/"); [contradiction | reflexivity].
Qed.

(** ** Equality of endpoints *)

Lemma same_host_sym (a b : string) : same_host a b -> same_host b a.
Proof.
  intros [->|(ha & hb & p & Ea & Eb & La & Lb)].
  - now left.
  - right. exists hb, ha, p. auto.
Qed.

Lemma same_host_trans (a b c : string) :
  same_host a b -> same_host b c -> same_host a c.
Proof.
  intros [->|(ha & hb & p & Ea & Eb & La & Lb)]; [auto|].
  intros [<-|(hb' & hc & p' & Eb' & Ec & Lb' & Lc)].
  - right. exists ha, hb, p. auto.
  - rewrite Eb in Eb'. injection Eb' as <- <-.
    right. exists ha, hc, p. auto.
Qed.

Lemma Endpoint_Equal_true (e n : Endpoint) :
  Endpoint_Equal e n = true <->
  Scheme e = Scheme n
  /\ same_host (Host e) (Host n)
  /\ NormalizeURLPath (Path e) = NormalizeURLPath (Path n).
Proof.
  unfold Endpoint_Equal, same_host.
  destruct (String.eqb_spec (Scheme e) (Scheme n)) as [Es|Es]; simpl;
    [|split; [discriminate | intros [C _]; contradiction]].
  destruct (String.eqb_spec (Host e) (Host n)) as [Eh|Eh]; simpl.
  - destruct (String.eqb_spec (NormalizeURLPath (Path e)) (NormalizeURLPath (Path n)));
      simpl; split; auto; try discriminate. intros (_ & _ & C). contradiction.
  - destruct (net_SplitHostPort (Host e)) as [[eh ep]|err] eqn:Ee.
    + destruct (net_SplitHostPort (Host n)) as [[nh np]|err] eqn:En.
      * destruct (String.eqb_spec ep np) as [Ep|Ep]; simpl.
        -- destruct (IsLocalhost eh) eqn:Le; simpl.
           ++ destruct (IsLocalhost nh) eqn:Ln; simpl.
              ** destruct (String.eqb_spec (NormalizeURLPath (Path e))
                             (NormalizeURLPath (Path n))); simpl; split;
                   try discriminate.
                 --- intros _. repeat split; auto.
                     right. exists eh, nh, ep. subst np. auto.
                 --- auto.
                 --- intros (_ & _ & C). contradiction.
              ** split; [discriminate|].
                 intros (_ & [C|(ha & hb & p & Ea & Eb & La & Lb)] & _);
                   [contradiction|].
                 injection Eb as <- <-. congruence.
           ++ split; [discriminate|].
              intros (_ & [C|(ha & hb & p & Ea & Eb & La & Lb)] & _);
                [contradiction|].
              injection Ea as <- <-. congruence.
        -- split; [discriminate|].
           intros (_ & [C|(ha & hb & p & Ea & Eb & La & Lb)] & _);
             [contradiction|].
           injection Ea as <- <-. injection Eb as <- <-. contradiction.
      * split; [discriminate|].
        intros (_ & [C|(ha & hb & p & Ea & Eb & La & Lb)] & _);
          [contradiction | discriminate].
    + split; [discriminate|].
      intros (_ & [C|(ha & hb & p & Ea & Eb & La & Lb)] & _);
        [contradiction | discriminate].
Qed.

(** X13. Two endpoints are equal for [Endpoint.Equal] exactly when their
    schemes are the same, their paths are the same once normalized, and
    their hosts are the same text or two loopback names with the same
    port.  No other field of the URL is looked at. *)
Theorem Endpoint_Equal_meaning (e n : Endpoint) :
  Endpoint_Equal e n = true <->
  Scheme e = Scheme n
  /\ (Host e = Host n
      \/ exists (ehost nhost port : string),
           net_SplitHostPort (Host e) = Ok (ehost, port)
           /\ net_SplitHostPort (Host n) = Ok (nhost, port)
           /\ IsLocalhost ehost = true /\ IsLocalhost nhost = true)
  /\ NormalizeURLPath (Path e) = NormalizeURLPath (Path n).
Proof.
  apply Endpoint_Equal_true.
Qed.

(** X14. Every endpoint is equal to itself. *)
Theorem Endpoint_Equal_reflexive (e : Endpoint) : Endpoint_Equal e e = true.
Proof.
  apply Endpoint_Equal_true. repeat split. now left.
Qed.

(** X15. [Endpoint.Equal] gives the same answer whichever of the two
    endpoints is the receiver. *)
Theorem Endpoint_Equal_symmetric (e n : Endpoint) :
  Endpoint_Equal e n = Endpoint_Equal n e.
Proof.
  apply eq_true_iff_eq. rewrite !Endpoint_Equal_true.
  split; intros (Es & Eh & Ep); repeat split; auto using same_host_sym.
Qed.

(** X16. [Endpoint.Equal] is transitive. *)
Theorem Endpoint_Equal_transitive (e n m : Endpoint) :
  Endpoint_Equal e n = true ->
  Endpoint_Equal n m = true ->
  Endpoint_Equal e m = true.
Proof.
  rewrite !Endpoint_Equal_true.
  intros (Es & Eh & Ep) (Es' & Eh' & Ep').
  repeat split; [congruence | eauto using same_host_trans | congruence].
Qed.

(** ** Parsing endpoints *)

Lemma with_Host_with_Host (u : URL) (h h' : string) :
  with_Host (with_Host u h) h' = with_Host u h'.
Proof.
  reflexivity.
Qed.

Lemma with_Host_same (u : URL) : with_Host u (Host u) = u.
Proof.
  now destruct u.
Qed.

Lemma length_lt_1 (s : string) : (String.length s <? 1)%nat = true <-> s = "".
Proof.
  destruct s; simpl; split; auto; discriminate.
Qed.

(** The URL on which [ParseEndpoint] checks the port, and what it returns,
    when the port of a URL without host is empty. *)
Lemma ParseEndpoint_ok (s : string) (u : Endpoint) :
  (forall v : URL, Host v = "" -> URL_Port v = "") ->
  ParseEndpoint s = Ok u ->
  exists (parsed : URL) (h : string),
    url_Parse s = Ok parsed
    /\ Scheme parsed <> ""
    /\ (h = Host parsed
        \/ (Scheme parsed <> "memory" /\ URL_Port parsed = ""
            /\ h = Host parsed ++ ":12345"))
    /\ (Scheme parsed <> "memory" ->
        exists n : Z,
          strconv_ParseInt (URL_Port (with_Host parsed h)) = Ok n /\ (1 <= n)%Z)
    /\ u = with_Host parsed (strings_ToLower h).
Proof.
  intros Hport. unfold ParseEndpoint.
  destruct (url_Parse s) as [parsed|err]; [|discriminate].
  destruct (String.length (Scheme parsed) <? 1)%nat eqn:Hs; [discriminate|].
  assert (Hscheme : Scheme parsed <> "").
  { intros C. apply length_lt_1 in C. congruence. }
  destruct (String.eqb_spec (Scheme parsed) "memory") as [Hm|Hm]; simpl.
  - rewrite andb_false_r. rewrite Hm. simpl.
    intros E; injection E as <-.
    exists parsed, (Host parsed).
    split; [reflexivity|]. split; [exact Hscheme|].
    split; [left; reflexivity|]. split; [|reflexivity].
    intros C. contradiction.
  - rewrite andb_true_r.
    destruct (String.length (URL_Port parsed) <? 1)%nat eqn:Hp.
    + apply length_lt_1 in Hp. cbn [Scheme with_Host].
      destruct (String.eqb_spec (Scheme parsed) "memory") as [C|_]; [contradiction|]. simpl.
      destruct (strconv_ParseInt _) as [n|err] eqn:Hn; [|discriminate].
      destruct (Z.ltb_spec n 1) as [|Hpos]; [discriminate|].
      assert (Hne : (String.length
                       (Host parsed ++ String ":" (decimal_int DefaultEndpoint))
                     <? 1)%nat = false)
        by (destruct (Host parsed); reflexivity).
      rewrite Hne. intros E; injection E as <-.
      exists parsed, (Host parsed ++ ":12345").
      split; [reflexivity|]. split; [exact Hscheme|].
      split; [right; auto|]. split; [|reflexivity].
      intros _. exists n. split; [exact Hn | exact Hpos].
    + destruct (String.eqb_spec (Scheme parsed) "memory") as [C|_]; [contradiction|]. simpl.
      destruct (strconv_ParseInt _) as [n|err] eqn:Hn; [|discriminate].
      destruct (Z.ltb_spec n 1) as [|Hpos]; [discriminate|].
      destruct (String.length (Host parsed) <? 1)%nat eqn:Hh.
      * apply length_lt_1 in Hh. rewrite (Hport _ Hh) in Hp. discriminate Hp.
      * intros E; injection E as <-.
        exists parsed, (Host parsed).
        split; [reflexivity|]. split; [exact Hscheme|].
        split; [left; reflexivity|]. split; [|reflexivity].
        intros _. exists n. rewrite with_Host_same. split; [exact Hn | exact Hpos].
Qed.

(** What [ParseEndpoint] returns, when the port of a URL without host is
    empty: the parsed URL with the host in lower case, after [:12345] was
    appended if the scheme is not [memory] and there was no port. *)
Lemma ParseEndpoint_host (s : string) (u : Endpoint) :
  (forall v : URL, Host v = "" -> URL_Port v = "") ->
  ParseEndpoint s = Ok u ->
  exists parsed : URL,
    url_Parse s = Ok parsed
    /\ Scheme parsed <> ""
    /\ u = with_Host parsed
             (strings_ToLower
                (if negb (Scheme parsed =? "memory")
                    && (String.length (URL_Port parsed) <? 1)%nat
                 then Host parsed ++ ":12345"
                 else Host parsed)).
Proof.
  intros Hport. unfold ParseEndpoint.
  destruct (url_Parse s) as [parsed|err]; [|discriminate].
  destruct (String.length (Scheme parsed) <? 1)%nat eqn:Hs; [discriminate|].
  assert (Hscheme : Scheme parsed <> "").
  { intros C. apply length_lt_1 in C. congruence. }
  destruct (Scheme parsed =? "memory") eqn:Em; cbn [negb].
  - rewrite andb_false_r. rewrite Em. cbn [negb].
    intros E; injection E as <-. exists parsed.
    split; [reflexivity|]. split; [exact Hscheme|].
    rewrite Em. reflexivity.
  - rewrite andb_true_r.
    destruct (String.length (URL_Port parsed) <? 1)%nat eqn:Hp.
    + cbn [Scheme with_Host]. rewrite Em. simpl.
      destruct (strconv_ParseInt _) as [n|err]; [|discriminate].
      destruct (Z.ltb_spec n 1) as [|Hpos]; [discriminate|].
      assert (Hne : (String.length
                       (Host parsed ++ String ":" (decimal_int DefaultEndpoint))
                     <? 1)%nat = false)
        by (destruct (Host parsed); reflexivity).
      rewrite Hne.
      intros E; injection E as <-. exists parsed.
      split; [reflexivity|]. split; [exact Hscheme|].
      rewrite Em, Hp. reflexivity.
    + rewrite Em. cbn [negb].
      destruct (strconv_ParseInt _) as [n|err]; [|discriminate].
      destruct (Z.ltb_spec n 1) as [|Hpos]; [discriminate|].
      destruct (String.length (Host parsed) <? 1)%nat eqn:Hh.
      * apply length_lt_1 in Hh. rewrite (Hport _ Hh) in Hp. discriminate Hp.
      * intros E; injection E as <-. exists parsed.
        split; [reflexivity|]. split; [exact Hscheme|].
        rewrite Em, Hp. reflexivity.
Qed.

(** X17. [ParseEndpoint] changes the host and nothing else.  Provided the
    port of a URL without host is empty, the host it returns is the parsed
    host in lower case, with [:12345] appended first exactly when the scheme
    is not [memory] and the parsed URL has no port; it is never the host
    [127.0.0.1]: a URL without host whose scheme is not [memory] gets the
    host [:12345]. *)
Theorem ParseEndpoint_touches_host_only (s : string) (u : Endpoint) :
  (forall v : URL, Host v = "" -> URL_Port v = "") ->
  ParseEndpoint s = Ok u ->
  exists parsed : URL,
    url_Parse s = Ok parsed
    /\ Scheme parsed <> ""
    /\ (Scheme parsed <> "memory" -> URL_Port parsed = "" ->
        u = with_Host parsed (strings_ToLower (Host parsed ++ ":12345")))
    /\ (Scheme parsed = "memory" \/ URL_Port parsed <> "" ->
        u = with_Host parsed (strings_ToLower (Host parsed)))
    /\ (Scheme parsed <> "memory" -> Host parsed = "" ->
        u = with_Host parsed (strings_ToLower ":12345")).
Proof.
  intros Hport E.
  destruct (ParseEndpoint_host s u Hport E) as (parsed & Hp & Hs & ->).
  exists parsed. split; [exact Hp|]. split; [exact Hs|].
  destruct (String.eqb_spec (Scheme parsed) "memory") as [Hm|Hm];
    cbn [negb andb].
  - split; [intros C; contradiction|]. split; [intros _; reflexivity|].
    intros C; contradiction.
  - destruct (String.length (URL_Port parsed) <? 1)%nat eqn:Hlen.
    + apply length_lt_1 in Hlen. split; [intros _ _; reflexivity|]. split.
      * intros [C|C]; contradiction.
      * intros _ Hh. now rewrite Hh.
    + assert (Hport' : URL_Port parsed <> "").
      { intros C. apply length_lt_1 in C. congruence. }
      split; [intros _ C; contradiction|]. split; [intros _; reflexivity|].
      intros _ Hh. apply Hport in Hh. contradiction.
Qed.

(** X18. Provided the port of a URL without host is empty, an endpoint that
    [ParseEndpoint] returns with a scheme other than [memory] has a host
    that, before it was put in lower case, carried a port reading as an
    integer of at least 1. *)
Theorem ParseEndpoint_port_positive (s : string) (u : Endpoint) :
  (forall v : URL, Host v = "" -> URL_Port v = "") ->
  ParseEndpoint s = Ok u ->
  Scheme u <> "memory" ->
  exists (h : string) (n : Z),
    Host u = strings_ToLower h
    /\ strconv_ParseInt (URL_Port (with_Host u h)) = Ok n
    /\ (1 <= n)%Z.
Proof.
  intros Hport E Hm.
  destruct (ParseEndpoint_ok s u Hport E) as (parsed & h & Hp & Hs & Hh & Hn & ->).
  destruct (Hn Hm) as (n & En & Hpos).
  exists h, n. repeat split; auto.
Qed.

(** X19. A URL of scheme [memory] is accepted whatever its host and port:
    [ParseEndpoint] returns it with the host in lower case. *)
Theorem ParseEndpoint_memory (s : string) (parsed : URL) :
  url_Parse s = Ok parsed ->
  Scheme parsed = "memory" ->
  ParseEndpoint s = Ok (with_Host parsed (strings_ToLower (Host parsed))).
Proof.
  intros Hp Hm. unfold ParseEndpoint. rewrite Hp, Hm. simpl.
  rewrite andb_false_r, Hm. reflexivity.
Qed.

(** ** Decoding endpoints *)

Lemma substring_0_append (s t : string) :
  substring 0 (String.length s) (s ++ t) = s.
Proof.
  induction s as [|c s IH]; simpl.
  - now destruct t.
  - now rewrite IH.
Qed.

Lemma length_append_1 (s : string) (c : ascii) :
  String.length (s ++ String c "") = S (String.length s).
Proof.
  induction s as [|d s IH]; simpl; [reflexivity | now rewrite IH].
Qed.

(** X20. [Endpoint.UnmarshalJSON] drops the first and the last octet of
    its input, whatever they are, and parses what stands between.  When
    the parse fails the receiver is left as it was; when it succeeds the
    receiver is the parsed endpoint. *)
Theorem Endpoint_UnmarshalJSON_strips (e : Endpoint) (first last : ascii)
    (s : string) :
  Endpoint_UnmarshalJSON e (String first (s ++ String last "")) =
  Returns match ParseEndpoint s with
          | Ok p => (p, None)
          | Failed err => (e, Some err)
          end.
Proof.
  unfold Endpoint_UnmarshalJSON.
  cbn [String.length]. rewrite length_append_1.
  replace (S (S (String.length s)) - 2)%nat with (String.length s) by lia.
  cbn [Nat.ltb Nat.leb substring]. rewrite substring_0_append.
  destruct (ParseEndpoint s); reflexivity.
Qed.

(** X21. [Endpoint.UnmarshalJSON] panics exactly on the inputs of fewer
    than two octets. *)
Theorem Endpoint_UnmarshalJSON_panics_iff (e : Endpoint) (b : bytes) :
  Endpoint_UnmarshalJSON e b = Panics <-> (String.length b < 2)%nat.
Proof.
  unfold Endpoint_UnmarshalJSON.
  destruct (Nat.ltb_spec (String.length b) 2) as [Hlt|Hge].
  - split; auto.
  - split; [|lia].
    destruct (ParseEndpoint _); discriminate.
Qed.

End NetProperties.

(** ** The further properties at work on the samples *)

Lemma UnmarshalJSON_forgets_receiver_witness :
  snd (value (UnmarshalJSON Wire.payment_op Wire.payment_wire)) = None
  /\ value (UnmarshalJSON Wire.payment_op Wire.payment_wire)
     = value (UnmarshalJSON zero_Operation Wire.payment_wire).
Proof.
  split; [reflexivity|].
  apply (proj2 (proj2 (UnmarshalJSON_forgets_receiver
                         Wire.payment_op zero_Operation Wire.payment_wire))).
  reflexivity.
Defined.

Lemma produced_tags_are_valid_witness :
  (NewOperation Wire.gabc_100 = (Wire.payment_op, None)
   /\ IsValidOperationType (Type_ (H Wire.payment_op)) = true)
  /\ (value (UnmarshalJSON zero_Operation Wire.payment_wire) = (Wire.payment_op, None)
      /\ IsValidOperationType (Type_ (H Wire.payment_op)) = true).
Proof.
  split; (split; [reflexivity|]).
  - apply (proj1 produced_tags_are_valid Wire.gabc_100). reflexivity.
  - apply (proj2 produced_tags_are_valid zero_Operation Wire.payment_wire).
    reflexivity.
Defined.

Lemma failed_operation_panics_witness :
  (snd (NewOperation Wire.failing_double) <> None
   /\ Operation_HasFee (fst (NewOperation Wire.failing_double)) = Panics)
  /\ (snd (value (UnmarshalJSON zero_Operation Wire.bogus_wire)) <> None
      /\ Operation_HasFee (fst (value (UnmarshalJSON zero_Operation Wire.bogus_wire)))
         = Panics).
Proof.
  split; (split; [discriminate|]).
  - apply (proj1 (@failed_operation_panics Wire.collaborators Wire.json)
             Wire.failing_double tt).
    discriminate.
  - apply (proj2 (@failed_operation_panics Wire.collaborators Wire.json)
             Wire.bogus_wire tt).
    discriminate.
Defined.

(** Ports below 1030 are taken, 1030 and 1031 are excluded: the first
    eligible port is 1032. *)
Example GetFreePort_scenario :
  GetFreePort [1030; 1031]%Z = 1032%Z
  /\ GetFreePort (platform := Sample.crowded) [] = 0%Z.
Proof.
  split; vm_compute; reflexivity.
Qed.

Lemma GetFreePort_first_witness :
  (1024 <= GetFreePort [1030; 1031]%Z <= 1035)%Z.
Proof.
  apply (GetFreePort_first [1030; 1031]%Z 1035%Z).
  - lia.
  - simpl. intuition lia.
  - discriminate.
Defined.

Lemma NormalizeURLPath_idempotent_witness :
  NormalizeURLPath "  /a  " = "/a"
  /\ NormalizeURLPath (NormalizeURLPath "  /a  ") = NormalizeURLPath "  /a  ".
Proof.
  split; [reflexivity|].
  apply (NormalizeURLPath_idempotent "  /a  "); reflexivity.
Defined.

Lemma Endpoint_Equal_transitive_witness :
  Endpoint_Equal (with_Host (Sample.plain_URL "/") "localhost:80")
                 (with_Host (Sample.plain_URL "") "127.0.0.1:80") = true
  /\ Endpoint_Equal (with_Host (Sample.plain_URL "") "127.0.0.1:80")
                    (with_Host (Sample.plain_URL " ") "127.0.0.5:80") = true
  /\ Endpoint_Equal (with_Host (Sample.plain_URL "/") "localhost:80")
                    (with_Host (Sample.plain_URL " ") "127.0.0.5:80") = true.
Proof.
  split; [reflexivity|]. split; [reflexivity|].
  apply (Endpoint_Equal_transitive
           (with_Host (Sample.plain_URL "/") "localhost:80")
           (with_Host (Sample.plain_URL "") "127.0.0.1:80")
           (with_Host (Sample.plain_URL " ") "127.0.0.5:80"));
    reflexivity.
Defined.

Lemma Sample_Port_without_host (v : URL) : Host v = "" -> Sample.Port v = "".
Proof.
  intros E. unfold Sample.Port. now rewrite E.
Defined.

(** A URL without host: the host of the endpoint is [:12345]. *)
Lemma ParseEndpoint_touches_host_only_witness :
  ParseEndpoint "http:///x"
  = Ok (with_Host (with_Scheme (Sample.plain_URL "/x") "http") ":12345")
  /\ exists parsed : URL,
       url_Parse "http:///x" = Ok parsed
       /\ Scheme parsed <> ""
       /\ (Scheme parsed <> "memory" -> URL_Port parsed = "" ->
           with_Host (with_Scheme (Sample.plain_URL "/x") "http") ":12345"
           = with_Host parsed (strings_ToLower (Host parsed ++ ":12345")))
       /\ (Scheme parsed = "memory" \/ URL_Port parsed <> "" ->
           with_Host (with_Scheme (Sample.plain_URL "/x") "http") ":12345"
           = with_Host parsed (strings_ToLower (Host parsed)))
       /\ (Scheme parsed <> "memory" -> Host parsed = "" ->
           with_Host (with_Scheme (Sample.plain_URL "/x") "http") ":12345"
           = with_Host parsed (strings_ToLower ":12345")).
Proof.
  split; [reflexivity|].
  exact (ParseEndpoint_touches_host_only (platform := Sample.platform) "http:///x"
           (with_Host (with_Scheme (Sample.plain_URL "/x") "http") ":12345")
           Sample_Port_without_host eq_refl).
Defined.

Lemma ParseEndpoint_port_positive_witness :
  ParseEndpoint "http://Example.com:80/x"
  = Ok (with_Host (with_Scheme (Sample.plain_URL "/x") "http") "example.com:80")
  /\ exists (h : string) (n : Z),
       "example.com:80" = strings_ToLower h
       /\ strconv_ParseInt
            (URL_Port (with_Host (with_Scheme (Sample.plain_URL "/x") "http") h))
          = Ok n
       /\ (1 <= n)%Z.
Proof.
  split; [reflexivity|].
  exact (ParseEndpoint_port_positive (platform := Sample.platform)
           "http://Example.com:80/x"
           (with_Host (with_Scheme (Sample.plain_URL "/x") "http") "example.com:80")
           Sample_Port_without_host eq_refl ltac:(discriminate)).
Defined.

Lemma ParseEndpoint_memory_witness :
  ParseEndpoint "memory://Abc"
  = Ok (with_Host (with_Scheme (Sample.plain_URL "") "memory") "abc").
Proof.
  exact (ParseEndpoint_memory (platform := Sample.platform) "memory://Abc"
           (with_Host (with_Scheme (Sample.plain_URL "") "memory") "Abc")
           eq_refl eq_refl).
Defined.

(** A JSON number of one digit reaches the slice with one octet. *)
Example Endpoint_UnmarshalJSON_scenario :
  Endpoint_UnmarshalJSON (Sample.plain_URL "") "5" = Panics
  /\ Endpoint_UnmarshalJSON (Sample.plain_URL "") "-http://a:1-"
     = Returns (with_Host (with_Scheme (Sample.plain_URL "") "http") "a:1", None)
  /\ Endpoint_UnmarshalJSON (Sample.plain_URL "/old") "<example.com>"
     = Returns (Sample.plain_URL "/old", Some (ForeignError "missing scheme")).
Proof.
  repeat split.
Qed.

(** * The round trip through the envelope *)

Section RoundTrip.

Context {collaborators : Collaborators} {codec : PayloadCodec}.

Lemma append_String_assoc (s : string) (c : ascii) (t : string) :
  (s ++ String c "") ++ t = s ++ String c t.
Proof.
  induction s as [|d s IH]; simpl; [reflexivity | now rewrite IH].
Qed.

Lemma plain_not_quote (c : ascii) :
  Wire.plain c = true -> Ascii.eqb c Wire.dq = false.
Proof.
  intros Hc. destruct (Ascii.eqb_spec c Wire.dq) as [->|]; [|reflexivity].
  discriminate Hc.
Qed.

(** A plain tag is read back up to its closing quote. *)
Lemma read_plain_append (t rest : string) :
  Wire.all_plain t = true ->
  Wire.read_plain (t ++ String Wire.dq rest) = Some (t, rest).
Proof.
  unfold Wire.all_plain.
  induction t as [|c t IH]; cbn [list_ascii_of_string forallb append Wire.read_plain].
  - intros _. now rewrite Ascii.eqb_refl.
  - intros Hall. apply andb_prop in Hall as [Hc Ht].
    rewrite (plain_not_quote c Hc), Hc, (IH Ht). reflexivity.
Qed.

(** The envelope of a plain tag and of one JSON value is read back as that
    tag and the octets of that value. *)
Lemma Unmarshal_envelop_render (t : OperationType) (raw : bytes) :
  Wire.all_plain t = true ->
  Envelope.delimited raw ->
  raw <> "null" ->
  Envelope.Unmarshal_envelop (Wire.render_envelope t raw)
  = Ok ({| Type_ := t |}, raw).
Proof.
  intros Ht Hraw Hnull.
  unfold Envelope.Unmarshal_envelop, Wire.render_envelope, Wire.quote.
  cbn [append Wire.expect Ascii.eqb Bool.eqb Wire.dq Wire.read_string].
  rewrite append_String_assoc, (read_plain_append _ _ Ht).
  cbn [append Wire.expect Ascii.eqb Bool.eqb Wire.dq].
  unfold Envelope.delimited in Hraw. rewrite Hraw.
  rewrite length_append_1.
  replace (S (String.length raw) - 1)%nat with (String.length raw) by lia.
  rewrite substring_0_append. cbv zeta.
  destruct (String.eqb_spec raw "null") as [C|_]; [contradiction | reflexivity].
Qed.

Lemma all_plain_discriminant (k : Variant) :
  Wire.all_plain (discriminant k) = true.
Proof.
  destruct k; reflexivity.
Qed.

(** C2, amended.  Round trip, for the payloads that their own encoding
    gives back.  Let [b] be a struct of one of the eight registered types
    whose encoding [raw] is one JSON value, other than [null], that
    decodes, as a struct of that type, to [b].  Then [NewOperation b]
    succeeds with the tag of that type, its JSON encoding is the envelope
    of that tag and [raw], and decoding that encoding into any receiver
    succeeds and leaves in it an operation equal to [NewOperation b],
    header and body. *)
Theorem roundtrip_law (k : Variant) (ob : payload k) (o : Operation)
    (raw : bytes) :
  marshal_payload k ob = Ok raw ->
  Envelope.delimited raw ->
  raw <> "null" ->
  unmarshal_payload k raw = Ok ob ->
  NewOperation (valueOf k ob)
  = ({| H := {| Type_ := discriminant k |}; B := valueOf k ob |}, None)
  /\ json_Marshal (JSON := Envelope.json) (fst (NewOperation (valueOf k ob)))
     = Ok (Wire.render_envelope (discriminant k) raw)
  /\ value (UnmarshalJSON (json := Envelope.json) o
              (Wire.render_envelope (discriminant k) raw))
     = NewOperation (valueOf k ob).
Proof.
  intros Hwrite Hvalue Hnull Hread.
  assert (Hnew : NewOperation (valueOf k ob)
                 = ({| H := {| Type_ := discriminant k |}; B := valueOf k ob |}, None)).
  { unfold NewOperation. now rewrite switch_type_valueOf. }
  rewrite Hnew. split; [reflexivity|]. split.
  - cbn [fst]. unfold json_Marshal, Envelope.json, Envelope.Marshal.
    cbn [H B Type_]. now rewrite all_plain_discriminant, Hwrite.
  - rewrite (UnmarshalJSON_known (json := Envelope.json) o _ k raw).
    + unfold value, json_Unmarshal, Envelope.json. cbn [snd].
      now rewrite Hread.
    + unfold json_Unmarshal_envelop, Envelope.json.
      apply Unmarshal_envelop_render;
        [apply all_plain_discriminant | exact Hvalue | exact Hnull].
Qed.

End RoundTrip.

Lemma roundtrip_law_witness :
  marshal_payload (PayloadCodec := Envelope.fields_codec) Payment
    {| Wire.Target := "GABC"; Wire.Amount := 100 |}
  = Ok (Wire.render_Fields {| Wire.Target := "GABC"; Wire.Amount := 100 |})
  /\ json_Marshal (JSON := Envelope.json (codec := Envelope.fields_codec))
       (fst (NewOperation Wire.gabc_100))
     = Ok Wire.payment_wire
  /\ value (UnmarshalJSON (json := Envelope.json (codec := Envelope.fields_codec))
              Wire.payment_op Wire.payment_wire)
     = NewOperation Wire.gabc_100.
Proof.
  split; [reflexivity|].
  apply (roundtrip_law (codec := Envelope.fields_codec) Payment
           {| Wire.Target := "GABC"; Wire.Amount := 100 |} Wire.payment_op
           (Wire.render_Fields {| Wire.Target := "GABC"; Wire.Amount := 100 |}));
    try reflexivity.
  discriminate.
Defined.

(** C2, as stated, fails.  The payment has for target the one octet 255,
    which is not UTF-8 text.  [NewOperation] accepts it; its JSON encoding
    carries the escape of U+FFFD in place of the octet; decoding that
    encoding succeeds and yields a payment whose target is U+FFFD, which is
    not the operation that was encoded. *)
Lemma roundtrip_fails_on_invalid_utf8 :
  NewOperation Envelope.odd_payment
  = ({| H := {| Type_ := "payment" |}; B := Envelope.odd_payment |}, None)
  /\ json_Marshal (JSON := Envelope.json (codec := Envelope.fields_codec))
       (fst (NewOperation Envelope.odd_payment))
     = Ok Envelope.odd_payment_wire
  /\ value (UnmarshalJSON (json := Envelope.json (codec := Envelope.fields_codec))
              zero_Operation Envelope.odd_payment_wire)
     = ({| H := {| Type_ := "payment" |}; B := Envelope.replaced_payment |}, None)
  /\ value (UnmarshalJSON (json := Envelope.json (codec := Envelope.fields_codec))
              zero_Operation Envelope.odd_payment_wire)
     <> NewOperation Envelope.odd_payment.
Proof.
  split; [reflexivity|]. split; [reflexivity|].
  assert (E : value (UnmarshalJSON (json := Envelope.json (codec := Envelope.fields_codec))
                       zero_Operation Envelope.odd_payment_wire)
              = ({| H := {| Type_ := "payment" |}; B := Envelope.replaced_payment |}, None))
    by reflexivity.
  split; [exact E|]. rewrite E. intros C.
  apply (f_equal (fun r : @Operation Wire.collaborators * error =>
                    match B (fst r) with
                    | valueOf _ ob => Wire.Target ob
                    | _ => EmptyString
                    end)) in C.
  discriminate C.
Qed.
